(** * spamdetector.cpp: the transition-table automaton and its scan loop

    A shallow embedding of [src/spamdetector.cpp].  The program keeps one
    [DFAstate] object per automaton state; every object owns the vector of
    its outgoing [transitionRecord]s, filled by [addTransition] in [main].
    Guards and edge actions are C function pointers: a pointer is modelled
    by the name of the function it points to, a call through the pointer by
    [call_comparator] and [call_consumer].  The two globals and the two
    output streams are threaded explicitly as a [World]. *)

From Stdlib Require Import ZArith List String Ascii Bool Lia DecimalString.
From Stdlib Require DecimalPos.
Import ListNotations.
Local Open Scope Z_scope.

(** ** Characters *)

(** A [char] is modelled by its integer value. [ch] is a character literal. *)
Definition ch (a : ascii) : Z := Z.of_N (N_of_ascii a).

(** ['\n'], ['\t'], ['\r'] and the double quote. *)
Definition NL : ascii := "010"%char.
Definition TAB : ascii := "009"%char.
Definition CR : ascii := "013"%char.
Definition DQ : ascii := "034"%char.

(** The conversion applied when the [int] returned by [file.get()] is
    passed to [transitionWithChar(char)]: [char] is taken to be signed and
    eight bits wide.  Every guard compares against 7-bit literals only, so
    the statements on the automaton are made for arbitrary integers and do
    not depend on this choice. *)
Definition to_char (i : Z) : Z := if 128 <=? i then i - 256 else i.

(** [int] arithmetic: 32 bits, two's complement. *)
Definition wrap32 (z : Z) : Z := (z + 2147483648) mod 4294967296 - 2147483648.

(** ** Guards: [charComparator] *)

Inductive charComparator : Set :=
| everything | digits | justChar | whitespace | delimiters.

Definition call_comparator (f : charComparator) (c against : Z) : bool :=
  match f with
  | everything => true
  | digits => (ch "0" <=? c) && (c <=? ch "9")
  | justChar => c =? against
  | whitespace => (c =? ch " ") || (c =? ch TAB) || (c =? ch CR) || (c =? ch NL)
  | delimiters => (c =? ch " ") || (c =? ch DQ)
  end.

(** ** Globals and edge actions: [charConsumer] *)

Record World : Type := mkWorld {
  spamMessages : list Z;
  currentMessageNum : Z;
  cout : string;
  cerr : string
}.

Definition initial_world : World := mkWorld [] 0 "" "".

Definition put_cout (s : string) (w : World) : World :=
  mkWorld (spamMessages w) (currentMessageNum w) (cout w ++ s) (cerr w).

Definition put_cerr (s : string) (w : World) : World :=
  mkWorld (spamMessages w) (currentMessageNum w) (cout w) (cerr w ++ s).

Definition endl : string := String NL "".

Inductive charConsumer : Set :=
| sayAccepted | newMsg | handleMIDdig | recordSpam.

Definition call_consumer (f : charConsumer) (c : Z) (w : World) : World :=
  match f with
  | sayAccepted => put_cout ("Accepted" ++ endl) w
  | newMsg => mkWorld (spamMessages w) 0 (cout w) (cerr w)
  | handleMIDdig =>
      let digit := c - ch "0" in
      let times10 := wrap32 (currentMessageNum w * 10) in
      mkWorld (spamMessages w) (wrap32 (times10 + digit)) (cout w) (cerr w)
  | recordSpam =>
      mkWorld (spamMessages w ++ [currentMessageNum w])
              (currentMessageNum w) (cout w) (cerr w)
  end.

(** ** States *)

(** The state objects declared in [main]; an array element is named by the
    array and its index. *)
Inductive DFAstate : Set :=
| start
| openDoc (i : nat)
| openDocID (i : nat)
| msg (i : nat)
| msgdig (i : nat)
| closeDocID (i : nat)
| subject
| notdelimited
| delimited
| free_stuff (i : nat)
| free_access (i : nat)
| free_software (i : nat)
| free_vacation (i : nat)
| free_trials (i : nat)
| win (i : nat)
| winners (i : nat)
| winnings (i : nat)
| isSpam
| closeDoc (i : nat)
| closeDocSpam (i : nat).

Definition DFAstate_eq_dec (x y : DFAstate) : {x = y} + {x <> y}.
Proof. decide equality; apply Nat.eq_dec. Defined.

Definition same_state (x y : DFAstate) : bool :=
  if DFAstate_eq_dec x y then true else false.

(** The declared array bounds. *)
Definition declared (s : DFAstate) : bool :=
  match s with
  | start | subject | notdelimited | delimited | isSpam => true
  | openDoc i => (i <? 5)%nat
  | openDocID i => (i <? 7)%nat
  | msg i => (i <? 3)%nat
  | msgdig i => (i <? 2)%nat
  | closeDocID i => (i <? 8)%nat
  | free_stuff i => (i <? 5)%nat
  | free_access i => (i <? 6)%nat
  | free_software i => (i <? 8)%nat
  | free_vacation i => (i <? 8)%nat
  | free_trials i => (i <? 6)%nat
  | win i => (i <? 4)%nat
  | winners i => (i <? 3)%nat
  | winnings i => (i <? 4)%nat
  | closeDoc i => (i <? 5)%nat
  | closeDocSpam i => (i <? 5)%nat
  end.

Definition all_states : list DFAstate :=
  [start; subject; delimited; notdelimited; isSpam]
  ++ map openDoc (seq 0 5) ++ map openDocID (seq 0 7) ++ map msg (seq 0 3)
  ++ map msgdig (seq 0 2) ++ map closeDocID (seq 0 8)
  ++ map free_stuff (seq 0 5) ++ map free_access (seq 0 6)
  ++ map free_software (seq 0 8) ++ map free_vacation (seq 0 8)
  ++ map free_trials (seq 0 6) ++ map win (seq 0 4) ++ map winners (seq 0 3)
  ++ map winnings (seq 0 4) ++ map closeDoc (seq 0 5)
  ++ map closeDocSpam (seq 0 5).

(** [iteratedname]: the prefix followed by the decimal suffix. *)
Definition iteratedname (newname : string) (suffix : nat) : string :=
  newname ++ NilZero.string_of_uint (Nat.to_uint suffix).

(** The [name] field of every state as [main] sets it. *)
Definition name (s : DFAstate) : string :=
  match s with
  | start => "start"
  | subject => "subject"
  | delimited => "delimited"
  | notdelimited => "not-delimited"
  | isSpam => "isSpam"
  | openDoc i => iteratedname "openDoc_" i
  | openDocID i => iteratedname "openDocID_" i
  | msg i => iteratedname "msg_" i
  | msgdig i => iteratedname "msgdig_" i
  | closeDocID i => iteratedname "closeDocID_" i
  | free_stuff i => iteratedname "free_stuff_" i
  | free_access i => iteratedname "free_access_" i
  | free_software i => iteratedname "free_software_" i
  | free_vacation i => iteratedname "free_vacation_" i
  | free_trials i => iteratedname "free_trials_" i
  | win i => iteratedname "win_" i
  | winners i => iteratedname "winners_" i
  | winnings i => iteratedname "winnings_" i
  | closeDoc i => iteratedname "closeDoc_" i
  | closeDocSpam i => iteratedname "closeDocSpam_" i
  end.

(** ** Transition records and the engine *)

Record transitionRecord : Set := mkTransition {
  onSymbols : charComparator;
  to : DFAstate;
  doing : option charConsumer;
  comparedTo : Z
}.

(** The [transitions] vector of every state object. *)
Definition Automaton : Type := DFAstate -> list transitionRecord.

(** All state objects are default-constructed with an empty vector. *)
Definition no_transitions : Automaton := fun _ => [].

(** [push_back] on the vector of state [s]. *)
Definition addTransition (s : DFAstate) (which : charComparator)
    (where_ : DFAstate) (does : option charConsumer) (what : Z)
    (A : Automaton) : Automaton :=
  fun x => if same_state x s
           then A x ++ [mkTransition which where_ does what]
           else A x.

(** The [for] loop of [transitionWithChar] over the vector. *)
Fixpoint first_match (rules : list transitionRecord) (c : Z) (w : World)
    : option DFAstate * World :=
  match rules with
  | [] => (None, w)
  | i :: rest =>
      if call_comparator (onSymbols i) c (comparedTo i)
      then (Some (to i),
            match doing i with
            | Some f => call_consumer f c w
            | None => w
            end)
      else first_match rest c w
  end.

(** [transitionWithChar]: [None] is the NULL pointer. *)
Definition transitionWithChar (A : Automaton) (s : DFAstate) (c : Z)
    (w : World) : option DFAstate * World :=
  match A s with
  | [] => (None, w)
  | _ :: _ => first_match (A s) c w
  end.

(** ** The automaton built by [main] *)

Definition NULL : option charConsumer := None.

(** The default of the parameter [what] of [addTransition]. *)
Definition no_comparand : Z := -129.

(** [for(int i = lo; i < hi; ++i) body]. *)
Definition for_loop (lo hi : nat) (body : nat -> Automaton -> Automaton)
    (A : Automaton) : Automaton :=
  fold_left (fun acc i => body i acc) (seq lo (hi - lo)) A.

(** The statements of [main] that define the transition functions, in the
    order of the source. *)
Definition transition_definitions : list (Automaton -> Automaton) :=
  [
    (* for all states in the header, invalid input resets to the start of the header *)
    addTransition start justChar (openDoc 0) NULL (ch "<");
    addTransition start everything start NULL no_comparand;
    addTransition (openDoc 0) justChar (openDoc 1) NULL (ch "D");
    addTransition (openDoc 0) everything start NULL no_comparand;
    addTransition (openDoc 1) justChar (openDoc 2) NULL (ch "O");
    addTransition (openDoc 1) everything start NULL no_comparand;
    addTransition (openDoc 2) justChar (openDoc 3) NULL (ch "C");
    addTransition (openDoc 2) everything start NULL no_comparand;
    addTransition (openDoc 3) justChar (openDoc 4) (Some newMsg) (ch ">");
    addTransition (openDoc 3) everything start NULL no_comparand;
    addTransition (openDoc 4) whitespace (openDoc 4) NULL no_comparand;
    addTransition (openDoc 4) justChar (openDocID 0) NULL (ch "<");
    addTransition (openDoc 4) everything start NULL no_comparand;
    addTransition (openDocID 0) justChar (openDocID 1) NULL (ch "D");
    addTransition (openDocID 0) everything start NULL no_comparand;
    addTransition (openDocID 1) justChar (openDocID 2) NULL (ch "O");
    addTransition (openDocID 1) everything start NULL no_comparand;
    addTransition (openDocID 2) justChar (openDocID 3) NULL (ch "C");
    addTransition (openDocID 2) everything start NULL no_comparand;
    addTransition (openDocID 3) justChar (openDocID 4) NULL (ch "I");
    addTransition (openDocID 3) everything start NULL no_comparand;
    addTransition (openDocID 4) justChar (openDocID 5) NULL (ch "D");
    addTransition (openDocID 4) everything start NULL no_comparand;
    addTransition (openDocID 5) justChar (openDocID 6) NULL (ch ">");
    addTransition (openDocID 5) everything start NULL no_comparand;
    addTransition (openDocID 6) whitespace (openDocID 6) NULL no_comparand;
    addTransition (openDocID 6) justChar (msg 0) NULL (ch "m");
    addTransition (openDocID 6) everything start NULL no_comparand;
    addTransition (msg 0) justChar (msg 1) NULL (ch "s");
    addTransition (msg 0) everything start NULL no_comparand;
    addTransition (msg 1) justChar (msg 2) NULL (ch "g");
    addTransition (msg 1) everything start NULL no_comparand;
    addTransition (msg 2) digits (msgdig 0) (Some handleMIDdig) no_comparand;
    addTransition (msg 2) everything start NULL no_comparand;
    addTransition (msgdig 0) justChar (closeDocID 0) NULL (ch "<");
    addTransition (msgdig 0) whitespace (msgdig 1) NULL no_comparand;
    addTransition (msgdig 0) digits (msgdig 1) (Some handleMIDdig) no_comparand;
    addTransition (msgdig 0) everything start NULL no_comparand;
    addTransition (msgdig 1) justChar (closeDocID 0) NULL (ch "<");
    addTransition (msgdig 1) whitespace (msgdig 1) NULL no_comparand;
    addTransition (msgdig 1) everything start NULL no_comparand;
    addTransition (closeDocID 0) justChar (closeDocID 1) NULL (ch "/");
    addTransition (closeDocID 0) everything start NULL no_comparand;
    addTransition (closeDocID 1) justChar (closeDocID 2) NULL (ch "D");
    addTransition (closeDocID 1) everything start NULL no_comparand;
    addTransition (closeDocID 2) justChar (closeDocID 3) NULL (ch "O");
    addTransition (closeDocID 2) everything start NULL no_comparand;
    addTransition (closeDocID 3) justChar (closeDocID 4) NULL (ch "C");
    addTransition (closeDocID 3) everything start NULL no_comparand;
    addTransition (closeDocID 4) justChar (closeDocID 5) NULL (ch "I");
    addTransition (closeDocID 4) everything start NULL no_comparand;
    addTransition (closeDocID 5) justChar (closeDocID 6) NULL (ch "D");
    addTransition (closeDocID 5) everything start NULL no_comparand;
    addTransition (closeDocID 6) justChar (closeDocID 7) NULL (ch ">");
    addTransition (closeDocID 6) everything start NULL no_comparand;
    (* the header ends at a line of only whitespace *)
    addTransition (closeDocID 7) justChar subject NULL (ch NL);
    addTransition (closeDocID 7) everything (closeDocID 7) NULL no_comparand;
    addTransition subject justChar delimited NULL (ch NL);
    addTransition subject whitespace subject NULL no_comparand;
    addTransition subject everything (closeDocID 7) NULL no_comparand;
    (* spam keywords must begin with a delimiter *)
    addTransition notdelimited justChar (closeDoc 0) NULL (ch "<");
    addTransition notdelimited delimiters delimited NULL no_comparand;
    addTransition notdelimited everything notdelimited NULL no_comparand;
    addTransition delimited justChar (free_stuff 0) NULL (ch "f");
    addTransition delimited justChar (win 0) NULL (ch "w");
    addTransition delimited justChar (closeDoc 0) NULL (ch "<");
    addTransition delimited delimiters delimited NULL no_comparand;
    addTransition delimited everything notdelimited NULL no_comparand;
    (* once a message is declared spam it stays spam until the end of document *)
    addTransition isSpam justChar (closeDocSpam 0) NULL (ch "<");
    addTransition isSpam everything isSpam NULL no_comparand;
    (* check non-spam message for end of document *)
    addTransition (closeDoc 0) justChar (closeDoc 1) NULL (ch "/");
    addTransition (closeDoc 0) delimiters delimited NULL no_comparand;
    addTransition (closeDoc 0) everything notdelimited NULL no_comparand;
    addTransition (closeDoc 1) justChar (closeDoc 2) NULL (ch "D");
    addTransition (closeDoc 1) delimiters delimited NULL no_comparand;
    addTransition (closeDoc 1) everything notdelimited NULL no_comparand;
    addTransition (closeDoc 2) justChar (closeDoc 3) NULL (ch "O");
    addTransition (closeDoc 2) delimiters delimited NULL no_comparand;
    addTransition (closeDoc 2) everything notdelimited NULL no_comparand;
    addTransition (closeDoc 3) justChar (closeDoc 4) NULL (ch "C");
    addTransition (closeDoc 3) delimiters delimited NULL no_comparand;
    addTransition (closeDoc 3) everything notdelimited NULL no_comparand;
    addTransition (closeDoc 4) justChar start NULL (ch ">");
    addTransition (closeDoc 4) delimiters delimited NULL no_comparand;
    addTransition (closeDoc 4) everything notdelimited NULL no_comparand;
    (* check spam message for end of document *)
    addTransition (closeDocSpam 0) justChar (closeDocSpam 1) NULL (ch "/");
    addTransition (closeDocSpam 0) everything isSpam NULL no_comparand;
    addTransition (closeDocSpam 1) justChar (closeDocSpam 2) NULL (ch "D");
    addTransition (closeDocSpam 1) everything isSpam NULL no_comparand;
    addTransition (closeDocSpam 2) justChar (closeDocSpam 3) NULL (ch "O");
    addTransition (closeDocSpam 2) everything isSpam NULL no_comparand;
    addTransition (closeDocSpam 3) justChar (closeDocSpam 4) NULL (ch "C");
    addTransition (closeDocSpam 3) everything isSpam NULL no_comparand;
    addTransition (closeDocSpam 4) justChar start NULL (ch ">");
    addTransition (closeDocSpam 4) everything isSpam NULL no_comparand;
    (* keyword win and the keywords starting in winn *)
    addTransition (win 0) justChar (win 1) NULL (ch "i");
    addTransition (win 0) delimiters delimited NULL no_comparand;
    addTransition (win 0) everything notdelimited NULL no_comparand;
    addTransition (win 1) justChar (win 2) NULL (ch "n");
    addTransition (win 1) delimiters delimited NULL no_comparand;
    addTransition (win 1) everything notdelimited NULL no_comparand;
    addTransition (win 2) justChar (win 3) NULL (ch "n");
    addTransition (win 2) delimiters isSpam (Some recordSpam) no_comparand;
    addTransition (win 2) everything notdelimited NULL no_comparand;
    addTransition (win 3) justChar (winners 0) NULL (ch "e");
    addTransition (win 3) justChar (winnings 0) NULL (ch "i");
    addTransition (win 3) delimiters delimited NULL no_comparand;
    addTransition (win 3) everything notdelimited NULL no_comparand;
    (* complete winn to winners *)
    addTransition (winners 0) justChar (winners 1) NULL (ch "r");
    addTransition (winners 0) delimiters delimited NULL no_comparand;
    addTransition (winners 0) everything notdelimited NULL no_comparand;
    addTransition (winners 1) justChar (winners 2) NULL (ch "s");
    addTransition (winners 1) delimiters isSpam (Some recordSpam) no_comparand;
    addTransition (winners 1) everything notdelimited NULL no_comparand;
    addTransition (winners 2) delimiters isSpam (Some recordSpam) no_comparand;
    addTransition (winners 2) everything notdelimited NULL no_comparand;
    (* complete winn to winnings *)
    addTransition (winnings 0) justChar (winnings 1) NULL (ch "n");
    addTransition (winnings 0) delimiters delimited NULL no_comparand;
    addTransition (winnings 0) everything notdelimited NULL no_comparand;
    addTransition (winnings 1) justChar (winnings 2) NULL (ch "g");
    addTransition (winnings 1) delimiters delimited NULL no_comparand;
    addTransition (winnings 1) everything notdelimited NULL no_comparand;
    addTransition (winnings 2) justChar (winnings 3) NULL (ch "s");
    addTransition (winnings 2) delimiters delimited NULL no_comparand;
    addTransition (winnings 2) everything notdelimited NULL no_comparand;
    addTransition (winnings 3) delimiters isSpam (Some recordSpam) no_comparand;
    addTransition (winnings 3) everything notdelimited NULL no_comparand;
    (* all keyphrases starting with free and a space *)
    addTransition (free_stuff 0) justChar (free_stuff 1) NULL (ch "r");
    addTransition (free_stuff 0) delimiters delimited NULL no_comparand;
    addTransition (free_stuff 0) everything notdelimited NULL no_comparand;
    addTransition (free_stuff 1) justChar (free_stuff 2) NULL (ch "e");
    addTransition (free_stuff 1) delimiters delimited NULL no_comparand;
    addTransition (free_stuff 1) everything notdelimited NULL no_comparand;
    addTransition (free_stuff 2) justChar (free_stuff 3) NULL (ch "e");
    addTransition (free_stuff 2) delimiters delimited NULL no_comparand;
    addTransition (free_stuff 2) everything notdelimited NULL no_comparand;
    addTransition (free_stuff 3) justChar (free_stuff 4) NULL (ch " ");
    addTransition (free_stuff 3) justChar delimited NULL (ch DQ);
    addTransition (free_stuff 3) everything notdelimited NULL no_comparand;
    addTransition (free_stuff 4) justChar (free_stuff 0) NULL (ch "f");
    addTransition (free_stuff 4) justChar (win 0) NULL (ch "w");
    addTransition (free_stuff 4) justChar (closeDoc 0) NULL (ch "<");
    addTransition (free_stuff 4) justChar (free_access 0) NULL (ch "a");
    addTransition (free_stuff 4) justChar (free_software 0) NULL (ch "s");
    addTransition (free_stuff 4) justChar (free_trials 0) NULL (ch "t");
    addTransition (free_stuff 4) justChar (free_vacation 0) NULL (ch "v");
    addTransition (free_stuff 4) delimiters delimited NULL no_comparand;
    addTransition (free_stuff 4) everything notdelimited NULL no_comparand;
    addTransition (free_access 0) justChar (free_access 1) NULL (ch "c");
    addTransition (free_access 0) delimiters delimited NULL no_comparand;
    addTransition (free_access 0) everything notdelimited NULL no_comparand;
    addTransition (free_access 1) justChar (free_access 2) NULL (ch "c");
    addTransition (free_access 1) delimiters delimited NULL no_comparand;
    addTransition (free_access 1) everything notdelimited NULL no_comparand;
    addTransition (free_access 2) justChar (free_access 3) NULL (ch "e");
    addTransition (free_access 2) delimiters delimited NULL no_comparand;
    addTransition (free_access 2) everything notdelimited NULL no_comparand;
    addTransition (free_access 3) justChar (free_access 4) NULL (ch "s");
    addTransition (free_access 3) delimiters delimited NULL no_comparand;
    addTransition (free_access 3) everything notdelimited NULL no_comparand;
    addTransition (free_access 4) justChar (free_access 5) NULL (ch "s");
    addTransition (free_access 4) delimiters delimited NULL no_comparand;
    addTransition (free_access 4) everything notdelimited NULL no_comparand;
    addTransition (free_access 5) delimiters isSpam (Some recordSpam) no_comparand;
    addTransition (free_access 5) everything notdelimited NULL no_comparand;
    addTransition (free_software 0) justChar (free_software 1) NULL (ch "o");
    addTransition (free_software 1) justChar (free_software 2) NULL (ch "f");
    addTransition (free_software 2) justChar (free_software 3) NULL (ch "t");
    addTransition (free_software 3) justChar (free_software 4) NULL (ch "w");
    addTransition (free_software 4) justChar (free_software 5) NULL (ch "a");
    addTransition (free_software 5) justChar (free_software 6) NULL (ch "r");
    addTransition (free_software 6) justChar (free_software 7) NULL (ch "e");
    for_loop 0 7 (fun i => addTransition (free_software i) delimiters delimited NULL no_comparand);
    addTransition (free_software 7) delimiters isSpam (Some recordSpam) no_comparand;
    for_loop 0 8 (fun i => addTransition (free_software i) everything notdelimited NULL no_comparand);
    addTransition (free_trials 0) justChar (free_trials 1) NULL (ch "r");
    addTransition (free_trials 1) justChar (free_trials 2) NULL (ch "i");
    addTransition (free_trials 2) justChar (free_trials 3) NULL (ch "a");
    addTransition (free_trials 3) justChar (free_trials 4) NULL (ch "l");
    addTransition (free_trials 4) justChar (free_trials 5) NULL (ch "s");
    for_loop 0 5 (fun i => addTransition (free_trials i) delimiters delimited NULL no_comparand);
    addTransition (free_trials 5) delimiters isSpam (Some recordSpam) no_comparand;
    for_loop 0 6 (fun i => addTransition (free_trials i) everything notdelimited NULL no_comparand);
    addTransition (free_vacation 0) justChar (free_vacation 1) NULL (ch "a");
    addTransition (free_vacation 1) justChar (free_vacation 2) NULL (ch "c");
    addTransition (free_vacation 2) justChar (free_vacation 3) NULL (ch "a");
    addTransition (free_vacation 3) justChar (free_vacation 4) NULL (ch "t");
    addTransition (free_vacation 4) justChar (free_vacation 5) NULL (ch "i");
    addTransition (free_vacation 5) justChar (free_vacation 6) NULL (ch "o");
    addTransition (free_vacation 6) justChar (free_vacation 7) NULL (ch "n");
    for_loop 0 7 (fun i => addTransition (free_vacation i) delimiters delimited NULL no_comparand);
    addTransition (free_vacation 7) delimiters isSpam (Some recordSpam) no_comparand;
    for_loop 0 8 (fun i => addTransition (free_vacation i) everything notdelimited NULL no_comparand)
  ].

Definition main_automaton : Automaton :=
  fold_left (fun A statement => statement A) transition_definitions
            no_transitions.

(** ** The scan loop and [main] *)

(** [(char)input] as written to a stream. *)
Definition char_of_int (i : Z) : ascii := ascii_of_N (Z.to_N (i mod 256)).

Definition string_of_Z (z : Z) : string := NilZero.string_of_int (Z.to_int z).

(** How the [do ... while] loop is left: by [return -1], or because
    [file.get()] gave a negative value. *)
Record LoopResult : Type := mkLoopResult {
  returned : option Z;
  unread : string;
  world : World
}.

(** One iteration with a character [a] read: the two trace outputs, then
    the transition out of the current state. *)
Definition loop_body (A : Automaton) (s : DFAstate) (a : ascii) (w : World)
    : option DFAstate * World :=
  let input := ch a in
  let w1 := put_cout (String DQ (name s) ++ String DQ "") w in
  let w2 := put_cout ("-" ++ String (char_of_int input) "->") w1 in
  transitionWithChar A s (to_char input) w2.

(** The [do ... while(input >= 0)] loop.  [file] is what is left to read,
    [input] the value of the variable [input] on entry of the iteration. *)
Fixpoint scan_loop (A : Automaton) (file : string)
    (currentstate : option DFAstate) (input : Z) (w : World) : LoopResult :=
  match currentstate with
  | None =>
      mkLoopResult (Some (-1)) file
        (put_cerr ("Error: Unhandled symbol:" ++ String (char_of_int input) endl) w)
  | Some s =>
      match file with
      | EmptyString => mkLoopResult None "" (put_cout ("<end>" ++ endl) w)
      | String a rest =>
          let (next, w') := loop_body A s a w in
          scan_loop A rest next (ch a) w'
      end
  end.

(** The loop that reports and empties [spamMessages]. *)
Fixpoint report_loop (pending : list Z) (w : World) : World :=
  match pending with
  | [] => mkWorld [] (currentMessageNum w) (cout w) (cerr w)
  | front :: rest => report_loop rest (put_cout (String " " (string_of_Z front)) w)
  end.

(** [main] over an automaton [A], on the contents [file] of the message
    file: the exit code and the final globals and streams. *)
Definition main_over (A : Automaton) (file : string) : Z * World :=
  let r := scan_loop A file (Some start) 0 initial_world in
  match returned r with
  | Some code => (code, world r)
  | None =>
      let w := put_cout "The following messages were spam:" (world r) in
      let w := report_loop (spamMessages w) w in
      (0, put_cout endl w)
  end.

Definition main (file : string) : Z * World := main_over main_automaton file.

(** The flagged identifiers when the scan loop is left. *)
Definition flagged (file : string) : list Z :=
  spamMessages (world (scan_loop main_automaton file (Some start) 0 initial_world)).

(** The iterations of the loop over the characters of [pre], from state
    [s]: the state and globals on entry of the next iteration. *)
Fixpoint iterations (A : Automaton) (pre : string) (s : DFAstate) (w : World)
    : option DFAstate * World :=
  match pre with
  | EmptyString => (Some s, w)
  | String a rest =>
      match loop_body A s a w with
      | (Some s', w') => iterations A rest s' w'
      | (None, w') => (None, w')
      end
  end.

(** An automaton in which [start] has a rule for [<] only, the first of
    the statements of [main]. *)
Definition first_rule_only : Automaton :=
  addTransition start justChar (openDoc 0) NULL (ch "<") no_transitions.

(** ** Iterating the engine *)

(** The characters the loop submits to the engine for the bytes of [str]. *)
Definition chars (str : string) : list Z :=
  map (fun a => to_char (ch a)) (list_ascii_of_string str).

(** [transitionWithChar] applied along [cs], as the loop does while the
    state is not NULL. *)
Fixpoint run (A : Automaton) (s : DFAstate) (cs : list Z) (w : World)
    : option DFAstate * World :=
  match cs with
  | [] => (Some s, w)
  | c :: rest =>
      match transitionWithChar A s c w with
      | (Some s', w') => run A s' rest w'
      | (None, w') => (None, w')
      end
  end.

(** The states entered along [cs], one per symbol taken. *)
Fixpoint visited (A : Automaton) (s : DFAstate) (cs : list Z) (w : World)
    : list DFAstate :=
  match cs with
  | [] => []
  | c :: rest =>
      match transitionWithChar A s c w with
      | (Some s', w') => s' :: visited A s' rest w'
      | (None, _) => []
      end
  end.

(** States reachable from [start] in the automaton of [main]. *)
Inductive reachable : DFAstate -> Prop :=
| reachable_start : reachable start
| reachable_step s c w s' w' :
    reachable s ->
    transitionWithChar main_automaton s c w = (Some s', w') ->
    reachable s'.

(** A guard call of a rule. *)
Definition accepts (r : transitionRecord) (c : Z) : bool :=
  call_comparator (onSymbols r) c (comparedTo r).

(** The effect of the optional action of a rule. *)
Definition act (r : transitionRecord) (c : Z) (w : World) : World :=
  match doing r with
  | Some f => call_consumer f c w
  | None => w
  end.

(** ** Sample inputs *)

Definition nl : string := String NL "".
Definition dq : string := String DQ "".

Definition header (id : string) : string :=
  "<DOC><DOCID>msg" ++ id ++ "</DOCID>" ++ nl ++ "Subj" ++ nl ++ nl.

Definition record_win : string :=
  header "42" ++ "You win today" ++ dq ++ nl ++ "</DOC>".

Definition record_window : string :=
  header "42" ++ "You window today" ++ dq ++ nl ++ "</DOC>".

Definition record_window_unquoted : string :=
  header "42" ++ "You window today" ++ nl ++ "</DOC>".

Definition record_after_subject : string :=
  "<DOC><DOCID>msg42</DOCID>" ++ nl ++ "Subj" ++ nl ++ "win " ++ nl ++ "</DOC>".

Definition record_subject_on_tag_line : string :=
  "<DOC><DOCID>msg42</DOCID>Subj" ++ nl ++ "win " ++ nl ++ "</DOC>".

Definition record_after_blank_line : string :=
  "<DOC><DOCID>msg42</DOCID>" ++ nl ++ "Subj" ++ nl ++ nl ++ "win " ++ nl ++ "</DOC>".

(** A line without its terminating newline. *)
Definition no_newline (l : list Z) : bool :=
  forallb (fun c => negb (c =? ch NL)) l.

(** A line of spaces, tabs and carriage returns only. *)
Definition blank (l : list Z) : bool :=
  forallb (fun c => call_comparator whitespace c no_comparand) l.

(** A record with the identifier digits [id], an empty subject line, and
    [body] directly followed by the close marker. *)
Definition record_with (id body : string) : string :=
  "<DOC><DOCID>msg" ++ id ++ "</DOCID>" ++ nl ++ nl ++ body ++ "</DOC>".

(** The two globals, apart from the streams. *)
Definition same_globals (w1 w2 : World) : Prop :=
  spamMessages w1 = spamMessages w2 /\ currentMessageNum w1 = currentMessageNum w2.

(** The part of the close marker already read in a state of the flagged
    sink and its close-tag chain. *)
Definition close_progress (s : DFAstate) : list Z :=
  match s with
  | closeDocSpam 0 => chars "<"
  | closeDocSpam 1 => chars "</"
  | closeDocSpam 2 => chars "</D"
  | closeDocSpam 3 => chars "</DO"
  | closeDocSpam 4 => chars "</DOC"
  | _ => []
  end.

(** The globals with the identifier set to [n]. *)
Definition with_id (w : World) (n : Z) : World :=
  mkWorld (spamMessages w) n (cout w) (cerr w).

(** The states of the keyword chains. *)
Definition phrase_state (s : DFAstate) : bool :=
  match s with
  | win _ | winners _ | winnings _
  | free_stuff _ | free_access _ | free_software _
  | free_vacation _ | free_trials _ => declared s
  | _ => false
  end.

(** ** Checks on rule lists *)

Definition is_everything (g : charComparator) : bool :=
  match g with
  | everything => true
  | _ => false
  end.

(** The last rule added to a state is an [everything] rule. *)
Definition ends_with_catch_all (rules : list transitionRecord) : bool :=
  match rev rules with
  | r :: _ => is_everything (onSymbols r)
  | [] => false
  end.

(** The flagged sink and its close-tag chain. *)
Definition spam_zone (s : DFAstate) : bool :=
  match s with
  | isSpam => true
  | closeDocSpam i => (i <? 5)%nat
  | _ => false
  end.

(** How often [start] is entered along [cs]. *)
Definition start_entries (s : DFAstate) (cs : list Z) (w : World) : nat :=
  count_occ DFAstate_eq_dec (visited main_automaton s cs w) start.

(** One further append is possible before [start] is entered again,
    unless the automaton is in the flagged sink or its close-tag chain. *)
Definition appends_left (s : DFAstate) : nat :=
  if spam_zone s then 0%nat else 1%nat.

(** ** Output of [main] *)

(** What the report loop writes for the identifiers [l]. *)
Definition report_text (l : list Z) : string :=
  fold_right (fun x rest => String " " (string_of_Z x) ++ rest)%string ""%string l.

(** ** Further inputs and checks *)

(** Two records, the first touching every keyword chain without
    completing a phrase, the second flagged. *)
Definition tour : string :=
  "<DOC> <DOCID> msg12 </DOCID>" ++ nl ++ nl
  ++ "x free accessx free softwarex free trialsx free vacationx winnersx winningsx </DOC>"
  ++ record_with "1" " win ".

(** The largest identifier that can be held on entry of a state: [newMsg]
    has just cleared it in the states up to the first digit, one digit
    has been read in [msgdig 0], at most two anywhere else. *)
Definition id_bound (s : DFAstate) : Z :=
  match s with
  | openDoc 4 | openDocID _ | msg _ => 0
  | msgdig 0 => 9
  | _ => 99
  end.

(** A rule keeps the identifier within the bound of its target. *)
Definition keeps_id_bound (s : DFAstate) (r : transitionRecord) : bool :=
  match doing r with
  | Some newMsg => true
  | Some handleMIDdig =>
      match onSymbols r with
      | digits => id_bound s * 10 + 9 <=? id_bound (to r)
      | _ => false
      end
  | _ => id_bound s <=? id_bound (to r)
  end.

(** The identifier and the flagged list are in range for state [s]. *)
Definition id_invariant (s : DFAstate) (w : World) : Prop :=
  0 <= currentMessageNum w <= id_bound s
  /\ Forall (fun x => 0 <= x <= 99) (spamMessages w).

(** The first [n] characters of [str]. *)
Definition first_chars (n : nat) (str : string) : string := substring 0 n str.

(** The text of a marker or phrase that has just been read when a state
    is entered; empty for the states that are entered on several texts. *)
Definition matched_text (s : DFAstate) : string :=
  match s with
  | openDoc i => if (i <? 4)%nat then first_chars (S i) "<DOC" else ""
  | openDocID i => if (i <? 6)%nat then first_chars (S i) "<DOCID" else ""
  | msg i => first_chars (S i) "msg"
  | closeDocID i => if (i <? 7)%nat then first_chars (S i) "</DOCID" else ""
  | closeDoc i => first_chars (S i) "</DOC"
  | closeDocSpam i => first_chars (S i) "</DOC"
  | free_stuff i => first_chars (S i) "free "
  | free_access i => "free " ++ first_chars (S i) "access"
  | free_software i => "free " ++ first_chars (S i) "software"
  | free_trials i => "free " ++ first_chars (S i) "trials"
  | free_vacation i => "free " ++ first_chars (S i) "vacation"
  | win i => first_chars (S i) "winn"
  | winners i => "winn" ++ first_chars (S i) "ers"
  | winnings i => "winn" ++ first_chars (S i) "ings"
  | _ => ""
  end.

Definition same_chars (l1 l2 : list Z) : bool :=
  if list_eq_dec Z.eq_dec l1 l2 then true else false.

(** [t] ends the list [l]. *)
Definition ends_with (t l : list Z) : bool :=
  same_chars (skipn (List.length l - List.length t) l) t.

(** Taking rule [r] in state [s] reads the text of the target of [r]. *)
Definition reads_matched_text (s : DFAstate) (r : transitionRecord) : bool :=
  match chars (matched_text (to r)) with
  | [] => true
  | t => match onSymbols r with
         | justChar => ends_with t (chars (matched_text s) ++ [comparedTo r])
         | _ => false
         end
  end.

(** The texts on which a delimiter flags the record. *)
Definition flagging_texts : list string :=
  ["win"; "winner"; "winners"; "winnings";
   "free access"; "free software"; "free trials"; "free vacation"]%string.

(** The states in which the record body is scanned. *)
Definition in_body (s : DFAstate) : bool :=
  match s with
  | delimited | notdelimited | isSpam => true
  | closeDoc _ | closeDocSpam _ => declared s
  | _ => phrase_state s
  end.

(** A rule that no character outside 0..127 can trigger. *)
Definition ascii_only (r : transitionRecord) : bool :=
  match onSymbols r with
  | everything => false
  | justChar => (0 <=? comparedTo r) && (comparedTo r <=? 127)
  | _ => true
  end.

(** The last rule is an [everything] rule without action and the rules
    before it are triggered by 7-bit characters only. *)
Definition quiet_catch_all (rules : list transitionRecord) : bool :=
  match rev rules with
  | r :: before =>
      is_everything (onSymbols r)
      && match doing r with None => true | Some _ => false end
      && forallb ascii_only before
  | [] => false
  end.

(** [handleMIDdig] called on each character of [ds] in turn. *)
Definition accumulate (ds : list Z) (w : World) : World :=
  fold_left (fun acc c => call_consumer handleMIDdig c acc) ds w.

(** The trace written while [file] is read from state [s], when [nexts]
    are the states entered. *)
Fixpoint trace_text (s : DFAstate) (nexts : list DFAstate) (file : string) : string :=
  match file, nexts with
  | String a rest, n :: ns =>
      ((String DQ (name s) ++ String DQ "") ++ ("-" ++ String a "->"))
      ++ trace_text n ns rest
  | _, _ => ""
  end.

(** No [<] among the characters [l]. *)
Definition no_open_angle (l : list Z) : bool :=
  forallb (fun c => negb (c =? ch "<")) l.

(** The body states outside the two close-marker chains. *)
Definition plain_body (s : DFAstate) : bool :=
  match s with
  | closeDoc _ | closeDocSpam _ => false
  | _ => in_body s
  end.

(** The states in which the open marker is awaited. *)
Definition awaiting_record (s : DFAstate) : bool :=
  match s with
  | start => true
  | openDoc i => (i <? 4)%nat
  | _ => false
  end.

(** The names of two states agree only if the states do. *)
Definition names_apart (s1 s2 : DFAstate) : bool :=
  same_state s1 s2 || negb (String.eqb (name s1) (name s2)).

(** * Properties *)

(** ** The engine *)

Section Engine.

Variable A : Automaton.

Lemma first_match_accepts_eq (rules : list transitionRecord) (c : Z) (w : World) :
  first_match rules c w =
  match rules with
  | [] => (None, w)
  | i :: rest => if accepts i c then (Some (to i), act i c w)
                 else first_match rest c w
  end.
Proof. destruct rules; reflexivity. Qed.

Lemma first_match_skips (pre rest : list transitionRecord) (c : Z) (w : World) :
  (forall q, In q pre -> accepts q c = false) ->
  first_match (pre ++ rest) c w = first_match rest c w.
Proof.
  induction pre as [|q pre IH]; intros Hrej; [reflexivity|].
  simpl app. rewrite first_match_accepts_eq.
  rewrite (Hrej q (or_introl eq_refl)).
  apply IH. intros q' Hq'. apply Hrej. now right.
Qed.

Lemma first_match_split (rules : list transitionRecord) (c : Z) (w : World) :
  (exists pre r post,
      rules = pre ++ r :: post /\
      (forall q, In q pre -> accepts q c = false) /\
      accepts r c = true /\
      first_match rules c w = (Some (to r), act r c w))
  \/ ((forall q, In q rules -> accepts q c = false) /\
      first_match rules c w = (None, w)).
Proof.
  induction rules as [|i rest IH].
  - right. split; [intros q []|reflexivity].
  - rewrite first_match_accepts_eq. destruct (accepts i c) eqn:Hi.
    + left. exists [], i, rest. repeat split; trivial. intros q [].
    + destruct IH as [(pre & r & post & -> & Hpre & Hr & Heq)|[Hall Heq]].
      * left. exists (i :: pre), r, post. repeat split; trivial.
        intros q [<-|Hq]; auto.
      * right. split; trivial. intros q [<-|Hq]; auto.
Qed.

Lemma transitionWithChar_first_match (s : DFAstate) (c : Z) (w : World) :
  transitionWithChar A s c w = first_match (A s) c w.
Proof. unfold transitionWithChar. destruct (A s); reflexivity. Qed.

Lemma transition_some_rule (s : DFAstate) (c : Z) (w : World) s' w' :
  transitionWithChar A s c w = (Some s', w') ->
  exists r, In r (A s) /\ accepts r c = true /\ s' = to r /\ w' = act r c w.
Proof.
  rewrite transitionWithChar_first_match.
  destruct (first_match_split (A s) c w)
    as [(pre & r & post & Hs & _ & Hr & ->)|[_ ->]]; [|discriminate].
  intros [= <- <-]. exists r. rewrite Hs. repeat split; trivial.
  apply in_or_app. right. now left.
Qed.

Lemma transition_none_world (s : DFAstate) (c : Z) (w w' : World) :
  transitionWithChar A s c w = (None, w') -> w' = w.
Proof.
  rewrite transitionWithChar_first_match.
  destruct (first_match_split (A s) c w)
    as [(pre & r & post & _ & _ & _ & ->)|[_ ->]]; [discriminate|].
  now intros [= <-].
Qed.

Lemma run_app (s : DFAstate) (cs1 cs2 : list Z) (w : World) :
  run A s (cs1 ++ cs2) w =
  match run A s cs1 w with
  | (Some s', w') => run A s' cs2 w'
  | (None, w') => (None, w')
  end.
Proof.
  revert s w. induction cs1 as [|c cs1 IH]; intros s w; [reflexivity|].
  simpl. destruct (transitionWithChar A s c w) as [[s'|] w']; [apply IH|reflexivity].
Qed.

Lemma visited_app (s : DFAstate) (cs1 cs2 : list Z) (w : World) :
  visited A s (cs1 ++ cs2) w =
  match run A s cs1 w with
  | (Some s', w') => visited A s cs1 w ++ visited A s' cs2 w'
  | (None, _) => visited A s cs1 w
  end.
Proof.
  revert s w. induction cs1 as [|c cs1 IH]; intros s w; [reflexivity|].
  simpl. destruct (transitionWithChar A s c w) as [[s'|] w']; [|reflexivity].
  rewrite IH. now destruct (run A s' cs1 w') as [[s''|] w''].
Qed.

(** C3. In every automaton, for every state and symbol, the rules of the
    state are tried in the order in which they were added: when the rules
    before [r] all reject the symbol and [r] accepts it, the result is the
    target of [r] together with the globals after one call of the action
    of [r] on that symbol (unchanged when [r] has none), whatever rules
    follow [r]; and either such a first accepting rule exists, or all
    rules reject and the result is NULL with the globals untouched. *)
Theorem transitionWithChar_first_accepting_rule :
  forall (s : DFAstate) (c : Z) (w : World),
    (forall pre r post,
        A s = pre ++ r :: post ->
        (forall q, In q pre -> call_comparator (onSymbols q) c (comparedTo q) = false) ->
        call_comparator (onSymbols r) c (comparedTo r) = true ->
        transitionWithChar A s c w =
        (Some (to r),
         match doing r with
         | Some f => call_consumer f c w
         | None => w
         end))
    /\ ((exists pre r post,
            A s = pre ++ r :: post /\
            (forall q, In q pre -> call_comparator (onSymbols q) c (comparedTo q) = false) /\
            call_comparator (onSymbols r) c (comparedTo r) = true)
        \/ ((forall q, In q (A s) -> call_comparator (onSymbols q) c (comparedTo q) = false) /\
            transitionWithChar A s c w = (None, w))).
Proof.
  intros s c w. split.
  - intros pre r post Hs Hpre Hr.
    rewrite transitionWithChar_first_match, Hs.
    rewrite (first_match_skips pre (r :: post) c w Hpre).
    rewrite first_match_accepts_eq. unfold accepts. now rewrite Hr.
  - rewrite transitionWithChar_first_match.
    destruct (first_match_split (A s) c w)
      as [(pre & r & post & Hs & Hpre & Hr & _)|[Hall Heq]].
    + left. now exists pre, r, post.
    + right. now split.
Qed.

End Engine.

Lemma transitionWithChar_first_accepting_rule_witness :
  transitionWithChar main_automaton (win 2) (ch " ") initial_world
  = (Some isSpam, call_consumer recordSpam (ch " ") initial_world).
Proof.
  apply (proj1 (transitionWithChar_first_accepting_rule
                  main_automaton (win 2) (ch " ") initial_world)
           [mkTransition justChar (win 3) NULL (ch "n")]
           (mkTransition delimiters isSpam (Some recordSpam) no_comparand)
           [mkTransition everything notdelimited NULL no_comparand]).
  - reflexivity.
  - intros q [<-|[]]. reflexivity.
  - reflexivity.
Defined.

(** ** The automaton of [main]: coverage *)

Lemma declared_all_states (s : DFAstate) :
  declared s = true -> In s all_states.
Proof.
  destruct s as [|i|i|i|i|i| | | |i|i|i|i|i|i|i|i| |i|i]; simpl declared; intros H;
    try (vm_compute; tauto);
    do 8 (try (destruct i as [|i]; [vm_compute; tauto|]));
    discriminate H.
Qed.

Lemma all_states_declared (s : DFAstate) :
  In s all_states -> declared s = true.
Proof.
  assert (H : forallb declared all_states = true) by (vm_compute; reflexivity).
  rewrite forallb_forall in H. apply H.
Qed.

Lemma targets_declared (s : DFAstate) (r : transitionRecord) :
  declared s = true -> In r (main_automaton s) -> declared (to r) = true.
Proof.
  intros Hs Hr. apply declared_all_states in Hs.
  assert (H : forallb (fun x => forallb (fun q => declared (to q)) (main_automaton x))
                      all_states = true) by (vm_compute; reflexivity).
  rewrite forallb_forall in H. specialize (H s Hs).
  rewrite forallb_forall in H. exact (H r Hr).
Qed.

Lemma declared_catch_all (s : DFAstate) :
  declared s = true -> ends_with_catch_all (main_automaton s) = true.
Proof.
  intros Hs. apply declared_all_states in Hs.
  assert (H : forallb (fun x => ends_with_catch_all (main_automaton x))
                      all_states = true) by (vm_compute; reflexivity).
  rewrite forallb_forall in H. exact (H s Hs).
Qed.

Lemma ends_with_catch_all_last (rules : list transitionRecord) :
  ends_with_catch_all rules = true ->
  exists pre r, rules = pre ++ [r] /\ onSymbols r = everything.
Proof.
  unfold ends_with_catch_all. intros H.
  destruct (rev rules) as [|r l] eqn:E; [discriminate|].
  exists (rev l), r. split.
  - rewrite <- (rev_involutive rules), E. reflexivity.
  - destruct (onSymbols r); (reflexivity || discriminate).
Qed.

Lemma step_declared (s : DFAstate) (c : Z) (w : World) s' w' :
  declared s = true ->
  transitionWithChar main_automaton s c w = (Some s', w') ->
  declared s' = true.
Proof.
  intros Hs Ht. apply transition_some_rule in Ht.
  destruct Ht as (r & Hin & _ & -> & _). now apply (targets_declared s).
Qed.

Lemma reachable_declared (s : DFAstate) : reachable s -> declared s = true.
Proof.
  induction 1 as [|s c w s' w' _ IH Ht]; [reflexivity|].
  exact (step_declared s c w s' w' IH Ht).
Qed.

Lemma declared_step_defined (s : DFAstate) (c : Z) (w : World) :
  declared s = true ->
  exists s' w', transitionWithChar main_automaton s c w = (Some s', w').
Proof.
  intros Hs.
  destruct (ends_with_catch_all_last _ (declared_catch_all s Hs))
    as (pre & r & Hrules & Hr).
  rewrite transitionWithChar_first_match.
  destruct (first_match_split (main_automaton s) c w)
    as [(pre' & r' & post' & _ & _ & _ & ->)|[Hall _]]; [eauto|].
  assert (Hin : In r (main_automaton s))
    by (rewrite Hrules; apply in_or_app; right; now left).
  specialize (Hall r Hin). unfold accepts in Hall. rewrite Hr in Hall.
  discriminate Hall.
Qed.

Lemma call_consumer_cerr (f : charConsumer) (c : Z) (w : World) :
  cerr (call_consumer f c w) = cerr w.
Proof. destruct f; reflexivity. Qed.

Lemma transition_cerr (A : Automaton) (s : DFAstate) (c : Z) (w : World) o w' :
  transitionWithChar A s c w = (o, w') -> cerr w' = cerr w.
Proof.
  destruct o as [s'|]; intros Ht.
  - apply transition_some_rule in Ht. destruct Ht as (r & _ & _ & _ & ->).
    unfold act. destruct (doing r); [apply call_consumer_cerr|reflexivity].
  - now rewrite (transition_none_world A s c w w' Ht).
Qed.

Lemma report_loop_cerr (pending : list Z) (w : World) :
  cerr (report_loop pending w) = cerr w.
Proof.
  revert w. induction pending as [|x l IH]; intros w; [reflexivity|].
  cbn [report_loop]. now rewrite IH.
Qed.

Lemma scan_loop_declared (file : string) :
  forall (s : DFAstate) (input : Z) (w : World),
    declared s = true ->
    let r := scan_loop main_automaton file (Some s) input w in
    returned r = None /\ unread r = ""%string /\ cerr (world r) = cerr w.
Proof.
  induction file as [|a rest IH]; intros s input w Hs.
  - now cbn.
  - cbn [scan_loop]. unfold loop_body.
    set (w2 := put_cout _ (put_cout _ w)).
    destruct (declared_step_defined s (to_char (ch a)) w2 Hs) as (s' & w3 & Ht).
    rewrite Ht.
    destruct (IH s' (ch a) w3 (step_declared _ _ _ _ _ Hs Ht)) as (H1 & H2 & H3).
    repeat split; trivial.
    rewrite H3. now rewrite (transition_cerr _ _ _ _ _ _ Ht).
Qed.

(** C2. For every state reachable from [start] in the automaton built by
    [main]: its rule list ends in an [everything] rule; for every symbol
    some rule of the state accepts; [transitionWithChar] returns a state,
    not NULL.  Hence on every file the scan loop reads the whole input and
    is left at end of input, [main] returns 0 and nothing is written to
    the error stream. *)
Theorem main_automaton_coverage :
  (forall s, reachable s ->
     (exists pre r, main_automaton s = pre ++ [r] /\ onSymbols r = everything)
     /\ (forall c : Z, exists r,
            In r (main_automaton s) /\
            call_comparator (onSymbols r) c (comparedTo r) = true)
     /\ (forall (c : Z) (w : World), exists s' w',
            transitionWithChar main_automaton s c w = (Some s', w')
            /\ reachable s'))
  /\ (forall file : string,
        let r := scan_loop main_automaton file (Some start) 0 initial_world in
        returned r = None /\ unread r = ""%string
        /\ fst (main file) = 0 /\ cerr (snd (main file)) = ""%string).
Proof.
  split.
  - intros s Hreach. pose proof (reachable_declared s Hreach) as Hs.
    destruct (ends_with_catch_all_last _ (declared_catch_all s Hs))
      as (pre & r & Hrules & Hr).
    split; [now exists pre, r|]. split.
    + intros c. exists r. split.
      * rewrite Hrules. apply in_or_app. right. now left.
      * now rewrite Hr.
    + intros c w. destruct (declared_step_defined s c w Hs) as (s' & w' & Ht).
      exists s', w'. split; [exact Ht|]. exact (reachable_step s c w s' w' Hreach Ht).
  - intros file.
    destruct (scan_loop_declared file start 0 initial_world eq_refl) as (H1 & H2 & H3).
    cbv zeta. repeat split; trivial.
    + unfold main, main_over. now rewrite H1.
    + unfold main, main_over. rewrite H1. cbn [snd].
      unfold put_cout at 1. cbn [cerr]. now rewrite report_loop_cerr.
Qed.

Lemma main_automaton_coverage_witness :
  reachable start
  /\ exists s' w',
       transitionWithChar main_automaton start (ch "<") initial_world = (Some s', w')
       /\ reachable s'.
Proof.
  split; [exact reachable_start|].
  exact (proj2 (proj2 (proj1 main_automaton_coverage start reachable_start))
           (ch "<") initial_world).
Defined.

(** ** The scan loop and the iterated engine *)

Lemma call_consumer_globals (f : charConsumer) (c : Z) (w1 w2 : World) :
  same_globals w1 w2 -> same_globals (call_consumer f c w1) (call_consumer f c w2).
Proof.
  intros [Hs Hc]. destruct f; split; cbn; congruence.
Qed.

Lemma transition_globals (A : Automaton) (s : DFAstate) (c : Z) (w1 w2 : World) :
  same_globals w1 w2 ->
  fst (transitionWithChar A s c w1) = fst (transitionWithChar A s c w2)
  /\ same_globals (snd (transitionWithChar A s c w1)) (snd (transitionWithChar A s c w2)).
Proof.
  intros Hg. rewrite !transitionWithChar_first_match.
  induction (A s) as [|i rules IH]; [now split|].
  cbn [first_match].
  destruct (call_comparator (onSymbols i) c (comparedTo i)); [|exact IH].
  split; [reflexivity|]. cbn [snd].
  destruct (doing i); [now apply call_consumer_globals|exact Hg].
Qed.

Lemma put_cout_globals (str : string) (w : World) : same_globals (put_cout str w) w.
Proof. now split. Qed.

Lemma same_globals_trans (w1 w2 w3 : World) :
  same_globals w1 w2 -> same_globals w2 w3 -> same_globals w1 w3.
Proof. intros [H1 H2] [H3 H4]. split; congruence. Qed.

(** The scan loop follows [run] on the characters of the file: it is left
    at end of input exactly when [run] never meets NULL, and then with the
    globals of [run]. *)
Lemma scan_loop_run (A : Automaton) (file : string) :
  forall (s : DFAstate) (input : Z) (w1 w2 : World),
    same_globals w1 w2 ->
    let r := scan_loop A file (Some s) input w1 in
    match run A s (chars file) w2 with
    | (Some _, w2') => returned r = None /\ same_globals (world r) w2'
    | (None, _) => returned r = Some (-1)
    end.
Proof.
  induction file as [|a rest IH]; intros s input w1 w2 Hg.
  - cbn. split; [reflexivity|].
    exact (same_globals_trans _ _ _ (put_cout_globals _ w1) Hg).
  - cbn [scan_loop]. unfold loop_body.
    change (chars (String a rest)) with (to_char (ch a) :: chars rest).
    cbn [run].
    set (w1' := put_cout _ (put_cout _ w1)).
    assert (Hg' : same_globals w1' w2).
    { subst w1'.
      refine (same_globals_trans _ _ _ (put_cout_globals _ _) _).
      exact (same_globals_trans _ _ _ (put_cout_globals _ _) Hg). }
    destruct (transition_globals A s (to_char (ch a)) w1' w2 Hg') as [Hfst Hsnd].
    destruct (transitionWithChar A s (to_char (ch a)) w1') as [o1 v1].
    destruct (transitionWithChar A s (to_char (ch a)) w2) as [o2 v2].
    cbn [fst snd] in Hfst, Hsnd. subst o2.
    destruct o1 as [s1|].
    + exact (IH s1 (ch a) v1 v2 Hsnd).
    + now destruct rest.
Qed.

Lemma flagged_run (file : string) :
  flagged file = spamMessages (snd (run main_automaton start (chars file) initial_world)).
Proof.
  unfold flagged.
  pose proof (scan_loop_run main_automaton file start 0 initial_world initial_world
                (conj eq_refl eq_refl)) as H.
  cbv zeta in H.
  pose proof (scan_loop_declared file start 0 initial_world eq_refl) as (Hret & _).
  destruct (run main_automaton start (chars file) initial_world) as [[s'|] w'].
  - now destruct H as [_ [H _]].
  - rewrite Hret in H. discriminate H.
Qed.

(** ** End-to-end scans *)

(** C1. On the record [<DOC><DOCID>msg42</DOCID>], subject line, blank
    line, body [You win today] followed by a double quote, and [</DOC>],
    the scan loop reads all the input and is left normally with the
    flagged list [[42]], and [main] returns 0 after printing that list;
    with the body [You window today] (with or without the quote) the
    flagged list is empty. *)
Theorem scan_record_win_and_window :
  (let r := scan_loop main_automaton record_win (Some start) 0 initial_world in
   returned r = None /\ unread r = ""%string
   /\ spamMessages (world r) = [42]
   /\ flagged record_win = [42]
   /\ fst (main record_win) = 0
   /\ cerr (snd (main record_win)) = ""%string
   /\ cout (snd (main record_win)) =
      (cout (world r) ++ "The following messages were spam: 42" ++ endl)%string)
  /\ (let r := scan_loop main_automaton record_window (Some start) 0 initial_world in
      returned r = None /\ unread r = ""%string
      /\ spamMessages (world r) = []
      /\ flagged record_window = []
      /\ fst (main record_window) = 0
      /\ cerr (snd (main record_window)) = ""%string
      /\ cout (snd (main record_window)) =
         (cout (world r) ++ "The following messages were spam:" ++ endl)%string)
  /\ flagged record_window_unquoted = []
  /\ fst (main record_window_unquoted) = 0.
Proof. vm_compute. repeat split. Qed.

(** C10. The input [<<DOC>] contains the open marker, yet no record is
    opened: in [openDoc 0] the second [<] is taken by the [everything]
    rule back to [start], the following [DOC>] keeps the automaton in
    [start] and [newMsg] is never called, whereas [<DOC>] alone leads to
    [openDoc 4]; a whole record preceded by a spurious [<] is not flagged
    although the record itself is. *)
Theorem spurious_open_angle_hides_marker :
  (forall w, transitionWithChar main_automaton (openDoc 0) (ch "<") w = (Some start, w))
  /\ (forall w, visited main_automaton start (chars "<<DOC>") w
                = [openDoc 0; start; start; start; start; start])
  /\ (forall w, run main_automaton start (chars "<<DOC>") w = (Some start, w))
  /\ (forall w, run main_automaton start (chars "<DOC>") w
                = (Some (openDoc 4), call_consumer newMsg (ch ">") w))
  /\ flagged ("<" ++ record_win) = []
  /\ flagged record_win = [42].
Proof. repeat split; try intros w; vm_compute; reflexivity. Qed.

(** ** Phrase boundaries *)

(** Replaces the rule list of a state of [main]'s automaton by its value. *)
Ltac rules_of s :=
  let l := eval vm_compute in (main_automaton s) in
  replace (main_automaton s) with l by (vm_compute; reflexivity).

Ltac symbolic_step s :=
  rewrite (transitionWithChar_first_match main_automaton s);
  rules_of s; cbn [first_match onSymbols to doing comparedTo call_comparator].

(** C5. In a record body, from the within-delimiter state: [winning]
    followed by any non-delimiter leaves the globals, and so the flagged
    list, unchanged; [win] followed by a space, and [win] between double
    quotes, each lead to [isSpam] with the current identifier appended at
    the end of the flagged list; [winners] followed by any delimiter
    passes through [win 3] and the [winners] states, appends nothing
    before the delimiter and appends the current identifier on it. *)
Theorem keyword_boundaries (w : World) :
  (forall c, call_comparator delimiters c no_comparand = false ->
     snd (run main_automaton delimited (chars "winning" ++ [c]) w) = w
     /\ spamMessages (snd (run main_automaton delimited (chars "winning" ++ [c]) w))
        = spamMessages w)
  /\ run main_automaton delimited (chars "win ") w
     = (Some isSpam,
        mkWorld (spamMessages w ++ [currentMessageNum w])
                (currentMessageNum w) (cout w) (cerr w))
  /\ run main_automaton delimited (chars (dq ++ "win" ++ dq)) w
     = (Some isSpam,
        mkWorld (spamMessages w ++ [currentMessageNum w])
                (currentMessageNum w) (cout w) (cerr w))
  /\ (forall d, call_comparator delimiters d no_comparand = true ->
        visited main_automaton delimited (chars "winners" ++ [d]) w
        = [win 0; win 1; win 2; win 3; winners 0; winners 1; winners 2; isSpam]
        /\ run main_automaton delimited (chars "winners") w = (Some (winners 2), w)
        /\ run main_automaton delimited (chars "winners" ++ [d]) w
           = (Some isSpam,
              mkWorld (spamMessages w ++ [currentMessageNum w])
                      (currentMessageNum w) (cout w) (cerr w))).
Proof.
  split; [|split; [|split]].
  - intros c Hc. rewrite run_app.
    replace (run main_automaton delimited (chars "winning") w)
      with (Some (winnings 2), w) by (vm_compute; reflexivity).
    cbn [run]. symbolic_step (winnings 2).
    cbn [call_comparator] in Hc. rewrite Hc.
    destruct (c =? 115); split; reflexivity.
  - vm_compute. reflexivity.
  - vm_compute. reflexivity.
  - intros d Hd.
    assert (Hrun : run main_automaton delimited (chars "winners") w = (Some (winners 2), w))
      by (vm_compute; reflexivity).
    assert (Hstep : transitionWithChar main_automaton (winners 2) d w
                    = (Some isSpam,
                       mkWorld (spamMessages w ++ [currentMessageNum w])
                               (currentMessageNum w) (cout w) (cerr w))).
    { symbolic_step (winners 2). cbn [call_comparator] in Hd. now rewrite Hd. }
    split; [|split; [exact Hrun|]].
    + rewrite visited_app, Hrun.
      replace (visited main_automaton delimited (chars "winners") w)
        with [win 0; win 1; win 2; win 3; winners 0; winners 1; winners 2]
        by (vm_compute; reflexivity).
      cbn [visited]. now rewrite Hstep.
    + rewrite run_app, Hrun. cbn [run]. now rewrite Hstep.
Qed.

Lemma keyword_boundaries_witness :
  spamMessages (snd (run main_automaton delimited (chars "winning" ++ [ch "x"])
                       (mkWorld [3] 7 "" ""))) = [3]
  /\ run main_automaton delimited (chars "winners" ++ [ch " "]) (mkWorld [3] 7 "" "")
     = (Some isSpam, mkWorld [3; 7] 7 "" "").
Proof.
  split.
  - apply (proj1 (keyword_boundaries (mkWorld [3] 7 "" "")) (ch "x")). reflexivity.
  - apply (proj2 (proj2 (proj2 (keyword_boundaries (mkWorld [3] 7 "" "")))) (ch " ")).
    reflexivity.
Defined.

(** ** One append per record *)

(** Case analysis over the declared states and over the rules of each. *)
Ltac each_state Hs :=
  apply declared_all_states in Hs; vm_compute in Hs;
  repeat (destruct Hs as [<-|Hs]); [..|contradiction].

Ltac each_rule Hr :=
  vm_compute in Hr; repeat (destruct Hr as [<-|Hr]); [..|contradiction].

Lemma recordSpam_rules (s : DFAstate) (r : transitionRecord) :
  declared s = true -> In r (main_automaton s) -> doing r = Some recordSpam ->
  to r = isSpam /\ spam_zone s = false.
Proof.
  intros Hs Hr Hd.
  each_state Hs; each_rule Hr; (discriminate Hd || (split; reflexivity)).
Qed.

Lemma spam_zone_declared (s : DFAstate) : spam_zone s = true -> declared s = true.
Proof. destruct s; simpl; congruence. Qed.

Lemma spam_zone_rules (s : DFAstate) (r : transitionRecord) :
  spam_zone s = true -> In r (main_automaton s) ->
  doing r = None /\
  (spam_zone (to r) = true \/
   (to r = start /\ s = closeDocSpam 4 /\ onSymbols r = justChar /\ comparedTo r = ch ">")).
Proof.
  intros Hz Hr. pose proof (spam_zone_declared s Hz) as Hs.
  each_state Hs; try discriminate Hz; each_rule Hr;
    (split; [reflexivity|]);
    first [left; reflexivity | right; repeat split; reflexivity].
Qed.

Lemma spam_zone_step (s : DFAstate) (c : Z) (w : World) :
  spam_zone s = true ->
  exists s', transitionWithChar main_automaton s c w = (Some s', w)
             /\ (spam_zone s' = true \/ (s' = start /\ s = closeDocSpam 4 /\ c = ch ">")).
Proof.
  intros Hz.
  destruct (declared_step_defined s c w (spam_zone_declared s Hz)) as (s' & w' & Ht).
  destruct (transition_some_rule _ _ _ _ _ _ Ht) as (r & Hin & Hacc & -> & ->).
  destruct (spam_zone_rules s r Hz Hin) as (Hd & Hto).
  exists (to r). unfold act in *. rewrite Hd in *. split; [exact Ht|].
  destruct Hto as [Hto|(Hto & Hs & Hg & Hc)]; [now left|right].
  repeat split; trivial.
  unfold accepts in Hacc. rewrite Hg, Hc in Hacc. now apply Z.eqb_eq in Hacc.
Qed.

Lemma step_appends_at_most_once (s : DFAstate) (c : Z) (w : World) s' w' :
  declared s = true ->
  transitionWithChar main_automaton s c w = (Some s', w') ->
  spamMessages w' = spamMessages w
  \/ (s' = isSpam /\ spam_zone s = false
      /\ spamMessages w' = spamMessages w ++ [currentMessageNum w]).
Proof.
  intros Hs Ht.
  destruct (transition_some_rule _ _ _ _ _ _ Ht) as (r & Hin & _ & -> & ->).
  unfold act. destruct (doing r) as [[]|] eqn:Hd; try (left; reflexivity).
  right. destruct (recordSpam_rules s r Hs Hin Hd) as (-> & Hz). now repeat split.
Qed.

Lemma spam_zone_frozen (cs : list Z) :
  forall (s : DFAstate) (w : World),
    spam_zone s = true ->
    ~ In start (visited main_automaton s cs w) ->
    exists s', run main_automaton s cs w = (Some s', w) /\ spam_zone s' = true.
Proof.
  induction cs as [|c cs IH]; intros s w Hz Hfree.
  - now exists s.
  - destruct (spam_zone_step s c w Hz) as (s1 & Ht & Hs1).
    cbn [run visited] in *. rewrite Ht in *.
    destruct Hs1 as [Hs1|(-> & _)].
    + apply IH; [exact Hs1|]. intros Hin. apply Hfree. now right.
    + exfalso. apply Hfree. now left.
Qed.

Lemma record_appends_at_most_once (cs : list Z) :
  forall (s : DFAstate) (w : World),
    declared s = true ->
    ~ In start (visited main_automaton s cs w) ->
    exists s' w',
      run main_automaton s cs w = (Some s', w') /\ declared s' = true
      /\ (spamMessages w' = spamMessages w
          \/ (spam_zone s' = true
              /\ exists x, spamMessages w' = spamMessages w ++ [x])).
Proof.
  induction cs as [|c cs IH]; intros s w Hs Hfree.
  - exists s, w. auto.
  - destruct (declared_step_defined s c w Hs) as (s1 & w1 & Ht).
    pose proof (step_declared _ _ _ _ _ Hs Ht) as Hs1.
    cbn [run visited] in *. rewrite Ht in *.
    assert (Hfree1 : ~ In start (visited main_automaton s1 cs w1))
      by (intros Hin; apply Hfree; now right).
    destruct (step_appends_at_most_once _ _ _ _ _ Hs Ht) as [Heq|(-> & _ & Heq)].
    + destruct (IH s1 w1 Hs1 Hfree1) as (s' & w' & Hrun & Hs' & Hcount).
      exists s', w'. rewrite Heq in Hcount. auto.
    + destruct (spam_zone_frozen cs isSpam w1 eq_refl Hfree1) as (s' & Hrun & Hz).
      exists s', w1. repeat split; trivial.
      * now apply spam_zone_declared.
      * right. split; [exact Hz|]. now exists (currentMessageNum w).
Qed.

Lemma spam_zone_progress (s : DFAstate) (c : Z) (w : World) s' :
  spam_zone s = true ->
  fst (transitionWithChar main_automaton s c w) = Some s' ->
  spam_zone s' = true ->
  close_progress s' = [] \/ close_progress s' = close_progress s ++ [c].
Proof.
  intros Hz. pose proof (spam_zone_declared s Hz) as Hs.
  each_state Hs; try discriminate Hz;
    match goal with
    | |- context [transitionWithChar main_automaton ?s c w] => symbolic_step s
    end;
    match goal with
    | |- context [c =? ?k] => destruct (Z.eqb_spec c k) as [->|_]
    end;
    cbn [fst]; intros [= <-] _; ((left; reflexivity) || (right; reflexivity)).
Qed.

Lemma spam_zone_run_progress (cs : list Z) :
  forall (s : DFAstate) (w : World) (p : list Z),
    spam_zone s = true ->
    ~ In start (visited main_automaton s cs w) ->
    (exists pre, p = pre ++ close_progress s) ->
    exists s', run main_automaton s cs w = (Some s', w) /\ spam_zone s' = true
               /\ exists pre, p ++ cs = pre ++ close_progress s'.
Proof.
  induction cs as [|c cs IH]; intros s w p Hz Hfree (pre & Hp).
  - exists s. repeat split; trivial. exists pre. now rewrite app_nil_r.
  - destruct (spam_zone_step s c w Hz) as (s1 & Ht & Hs1).
    cbn [run visited] in *. rewrite Ht in *.
    destruct Hs1 as [Hs1|(-> & _)]; [|exfalso; apply Hfree; now left].
    assert (Hfst : fst (transitionWithChar main_automaton s c w) = Some s1)
      by now rewrite Ht.
    destruct (IH s1 w (p ++ [c]) Hs1) as (s' & Hrun & Hz' & pre' & Hp').
    + intros Hin. apply Hfree. now right.
    + destruct (spam_zone_progress s c w s1 Hz Hfst Hs1) as [-> | ->].
      * exists (p ++ [c]). now rewrite app_nil_r.
      * exists pre. rewrite Hp. now rewrite app_assoc.
    + exists s'. repeat split; trivial. exists pre'.
      rewrite <- Hp'. now rewrite <- app_assoc.
Qed.

Lemma sink_left_by_close_marker (body : list Z) (last : Z) (w : World) :
  ~ In start (visited main_automaton isSpam body w) ->
  fst (run main_automaton isSpam (body ++ [last]) w) = Some start ->
  exists pre, body ++ [last] = pre ++ chars "</DOC>".
Proof.
  intros Hfree Hend.
  destruct (spam_zone_run_progress body isSpam w [] eq_refl Hfree)
    as (s' & Hrun & Hz & pre & Hp); [now exists []|].
  rewrite run_app, Hrun in Hend. cbn [run] in Hend.
  destruct (spam_zone_step s' last w Hz) as (s2 & Ht & Hs2).
  rewrite Ht in Hend. cbn [fst] in Hend. injection Hend as ->.
  destruct Hs2 as [Hs2|(_ & -> & ->)]; [discriminate Hs2|].
  exists pre. cbn [app] in Hp. rewrite Hp, <- app_assoc. reflexivity.
Qed.

Lemma appends_bounded_by_start_entries (cs : list Z) :
  forall (s : DFAstate) (w : World),
    declared s = true ->
    exists s' w',
      run main_automaton s cs w = (Some s', w')
      /\ (List.length (spamMessages w') + appends_left s'
          <= List.length (spamMessages w) + appends_left s + start_entries s cs w)%nat.
Proof.
  unfold start_entries.
  induction cs as [|c cs IH]; intros s w Hs.
  - exists s, w. split; [reflexivity|]. cbn. lia.
  - destruct (declared_step_defined s c w Hs) as (s1 & w1 & Ht).
    pose proof (step_declared _ _ _ _ _ Hs Ht) as Hs1.
    destruct (IH s1 w1 Hs1) as (s' & w' & Hrun & Hle).
    exists s', w'. cbn [run visited]. rewrite Ht. split; [exact Hrun|].
    cbn [count_occ].
    destruct (step_appends_at_most_once _ _ _ _ _ Hs Ht) as [Heq|(-> & Hz & Heq)].
    + rewrite Heq in Hle. unfold appends_left in *.
      destruct (spam_zone s) eqn:Hz.
      * destruct (spam_zone_step s c w Hz) as (s2 & Ht2 & Hs2).
        rewrite Ht in Ht2. injection Ht2 as <- _.
        destruct Hs2 as [Hs2|(-> & _)].
        -- rewrite Hs2 in Hle. destruct (DFAstate_eq_dec s1 start); lia.
        -- cbn in Hle |- *. lia.
      * destruct (spam_zone s1), (DFAstate_eq_dec s1 start); lia.
    + rewrite Heq, length_app in Hle. unfold appends_left in *.
      rewrite Hz. cbn in Hle |- *. lia.
Qed.

(** C4. In the automaton of [main]: every rule that carries [recordSpam]
    leads to [isSpam] and leaves a state outside [isSpam] and the
    [closeDocSpam] chain; from [isSpam] and the [closeDocSpam] states every
    symbol leads back into these states without touching the globals,
    except [>] in [closeDocSpam 4], which leads to [start]; so as long as
    [start] is not entered again the globals stay as they were.  Hence
    along any input on which [start] is entered at the earliest with the
    last symbol, the flagged list grows by at most one element;
    [isSpam] is left for [start] only by an input ending in [</DOC>]; and
    on every input stream read from [start] the number of appends is at
    most the number of times [start] was entered again, plus one while
    the record being read has not been flagged. *)
Theorem one_append_per_record :
  (forall s r, declared s = true -> In r (main_automaton s) ->
               doing r = Some recordSpam ->
               to r = isSpam /\ spam_zone s = false)
  /\ (forall s c w, spam_zone s = true ->
        exists s', transitionWithChar main_automaton s c w = (Some s', w)
                   /\ (spam_zone s' = true
                       \/ (s' = start /\ s = closeDocSpam 4 /\ c = ch ">")))
  /\ (forall s cs w, spam_zone s = true ->
        ~ In start (visited main_automaton s cs w) ->
        exists s', run main_automaton s cs w = (Some s', w) /\ spam_zone s' = true)
  /\ (forall s body last w, declared s = true ->
        ~ In start (visited main_automaton s body w) ->
        exists s' w',
          run main_automaton s (body ++ [last]) w = (Some s', w')
          /\ (spamMessages w' = spamMessages w
              \/ exists x, spamMessages w' = spamMessages w ++ [x]))
  /\ (forall body last w,
        ~ In start (visited main_automaton isSpam body w) ->
        fst (run main_automaton isSpam (body ++ [last]) w) = Some start ->
        exists pre, body ++ [last] = pre ++ chars "</DOC>")
  /\ (forall cs w, exists s' w',
        run main_automaton start cs w = (Some s', w')
        /\ (List.length (spamMessages w') + appends_left s'
            <= List.length (spamMessages w) + 1 + start_entries start cs w)%nat).
Proof.
  split; [exact recordSpam_rules|].
  split; [exact spam_zone_step|].
  split; [intros s cs w; exact (spam_zone_frozen cs s w)|].
  split; [|split; [exact sink_left_by_close_marker|
                   intros cs w;
                   exact (appends_bounded_by_start_entries cs start w eq_refl)]].
  intros s body last w Hs Hfree.
  destruct (record_appends_at_most_once body s w Hs Hfree)
    as (s1 & w1 & Hrun & Hs1 & Hcount).
  rewrite run_app, Hrun. cbn [run].
  destruct Hcount as [Heq|(Hz & x & Heq)].
  - destruct (declared_step_defined s1 last w1 Hs1) as (s' & w' & Ht).
    rewrite Ht. exists s', w'. split; [reflexivity|].
    destruct (step_appends_at_most_once _ _ _ _ _ Hs1 Ht) as [Heq'|(_ & _ & Heq')].
    + left. congruence.
    + right. exists (currentMessageNum w1). congruence.
  - destruct (spam_zone_step s1 last w1 Hz) as (s' & Ht & _).
    rewrite Ht. exists s', w1. split; [reflexivity|]. right. now exists x.
Qed.

Lemma one_append_per_record_witness :
  exists s' w',
    run main_automaton start (removelast (chars record_win) ++ [ch ">"]) initial_world
    = (Some s', w')
    /\ (spamMessages w' = spamMessages initial_world
        \/ exists x, spamMessages w' = spamMessages initial_world ++ [x]).
Proof.
  apply (proj1 (proj2 (proj2 (proj2 one_append_per_record)))).
  - reflexivity.
  - vm_compute. intros H.
    repeat (destruct H as [H|H]; [discriminate H|]). exact H.
Defined.

(** ** From the identifier marker to the body *)

Lemma closeDocID_7_step (c : Z) (w : World) :
  transitionWithChar main_automaton (closeDocID 7) c w
  = (Some (if c =? ch NL then subject else closeDocID 7), w).
Proof. symbolic_step (closeDocID 7). now destruct (c =? 10) eqn:E; cbn; rewrite E. Qed.

Lemma subject_step (c : Z) (w : World) :
  transitionWithChar main_automaton subject c w
  = (Some (if c =? ch NL then delimited
           else if call_comparator whitespace c no_comparand then subject
                else closeDocID 7), w).
Proof.
  symbolic_step subject. cbn.
  destruct (c =? 10); [reflexivity|].
  now destruct ((c =? 32) || (c =? 9) || (c =? 13) || false).
Qed.

Lemma skip_line (l : list Z) (w : World) :
  no_newline l = true ->
  run main_automaton (closeDocID 7) (l ++ [ch NL]) w = (Some subject, w).
Proof.
  induction l as [|c l IH]; intros Hl; cbn [run app]; rewrite closeDocID_7_step.
  - reflexivity.
  - cbn [no_newline forallb] in Hl. apply andb_prop in Hl. destruct Hl as [Hc Hl].
    apply negb_true_iff in Hc. rewrite Hc. now apply IH.
Qed.

Lemma blank_line_ends_header (l : list Z) (w : World) :
  no_newline l = true -> blank l = true ->
  run main_automaton subject (l ++ [ch NL]) w = (Some delimited, w).
Proof.
  induction l as [|c l IH]; intros Hl Hb; cbn [run app]; rewrite subject_step.
  - reflexivity.
  - cbn [no_newline blank forallb] in Hl, Hb.
    apply andb_prop in Hl. destruct Hl as [Hc Hl].
    apply andb_prop in Hb. destruct Hb as [Hw Hb].
    apply negb_true_iff in Hc. rewrite Hc, Hw. now apply IH.
Qed.

Lemma other_line_skipped (l : list Z) (w : World) :
  no_newline l = true -> blank l = false ->
  run main_automaton subject (l ++ [ch NL]) w = (Some subject, w).
Proof.
  induction l as [|c l IH]; intros Hl Hb; [discriminate Hb|].
  cbn [run app]. rewrite subject_step.
  cbn [no_newline blank forallb] in Hl, Hb.
  apply andb_prop in Hl. destruct Hl as [Hc Hl].
  apply negb_true_iff in Hc. rewrite Hc.
  destruct (call_comparator whitespace c no_comparand).
  - now apply IH.
  - now apply skip_line.
Qed.

(** C7 as stated fails: after the [>] of [</DOCID>] the newline ending
    one skipped line leaves the scanner in [subject], not in the body, and
    a flagged phrase on the line right after the subject line is not
    matched, whether the subject follows the marker on its line or stands
    on the next line; with a blank line before the phrase it is matched. *)
Lemma phrase_right_after_subject_line_missed :
  fst (run main_automaton (closeDocID 7) (chars ("Subj" ++ nl)) initial_world)
    = Some subject
  /\ fst (run main_automaton (closeDocID 7) (chars (nl ++ "Subj" ++ nl)) initial_world)
    = Some subject
  /\ fst (run main_automaton (closeDocID 7) (chars (nl ++ "Subj" ++ nl ++ "win ")) initial_world)
    = Some (closeDocID 7)
  /\ flagged record_after_subject = []
  /\ flagged record_subject_on_tag_line = []
  /\ flagged record_after_blank_line = [42].
Proof. vm_compute. repeat split. Qed.

(** C7, amended. After the [>] completing [</DOCID>] the scanner skips
    the rest of that line up to its newline and then every further line
    holding a character other than space, tab and carriage return; the
    newline of the first line made of such whitespace only (an empty line
    included) enters the record body in the within-delimiter state, with
    the globals untouched all along, so a flagged phrase on the line right
    after that blank line is matched. *)
Theorem body_starts_after_blank_line :
  (forall l w, no_newline l = true ->
     run main_automaton (closeDocID 7) (l ++ [ch NL]) w = (Some subject, w))
  /\ (forall l w, no_newline l = true -> blank l = false ->
        run main_automaton subject (l ++ [ch NL]) w = (Some subject, w))
  /\ (forall l w, no_newline l = true -> blank l = true ->
        run main_automaton subject (l ++ [ch NL]) w = (Some delimited, w))
  /\ (forall rest subj gap w,
        no_newline rest = true -> no_newline subj = true -> blank subj = false ->
        no_newline gap = true -> blank gap = true ->
        run main_automaton (closeDocID 7)
            (rest ++ [ch NL] ++ subj ++ [ch NL] ++ gap ++ [ch NL] ++ chars "win ") w
        = (Some isSpam, call_consumer recordSpam (ch " ") w)).
Proof.
  split; [exact skip_line|].
  split; [exact other_line_skipped|].
  split; [exact blank_line_ends_header|].
  intros rest subj gap w Hrest Hsubj Hnb Hgap Hb.
  rewrite !app_assoc. rewrite run_app.
  rewrite <- !app_assoc.
  replace (rest ++ [ch NL] ++ subj ++ [ch NL] ++ gap ++ [ch NL])
    with ((rest ++ [ch NL]) ++ (subj ++ [ch NL]) ++ (gap ++ [ch NL]))
    by (now rewrite <- !app_assoc).
  rewrite run_app, (skip_line rest w Hrest).
  rewrite run_app, (other_line_skipped subj w Hsubj Hnb).
  rewrite (blank_line_ends_header gap w Hgap Hb).
  vm_compute. reflexivity.
Qed.

Lemma body_starts_after_blank_line_witness :
  run main_automaton (closeDocID 7)
      (chars " " ++ [ch NL] ++ chars "Subj" ++ [ch NL] ++ chars " " ++ [ch NL] ++ chars "win ")
      initial_world
  = (Some isSpam, call_consumer recordSpam (ch " ") initial_world).
Proof.
  apply (proj2 (proj2 (proj2 body_starts_after_blank_line))); reflexivity.
Defined.

(** ** The unhandled-symbol exit *)

Lemma char_of_int_ch (a : ascii) : char_of_int (ch a) = a.
Proof.
  unfold char_of_int, ch.
  pose proof (N_ascii_bounded a) as Hb.
  rewrite Z.mod_small by lia.
  rewrite N2Z.id. apply ascii_N_embedding.
Qed.

Lemma scan_loop_iterations (A : Automaton) (file : string) (pre : string) :
  forall s0 i0 w0 s w,
    iterations A pre s0 w0 = (Some s, w) ->
    exists i, scan_loop A (pre ++ file) (Some s0) i0 w0
              = scan_loop A file (Some s) i w.
Proof.
  induction pre as [|a pre IH]; intros s0 i0 w0 s w Hit.
  - injection Hit as <- <-. now exists i0.
  - cbn [iterations] in Hit. cbn [append scan_loop].
    destruct (loop_body A s0 a w0) as [[s1|] w1]; [|discriminate Hit].
    exact (IH s1 (ch a) w1 s w Hit).
Qed.

(** C9 as stated fails: in an automaton where [start] has a rule for [<]
    only, the symbol [a] is unhandled in [start]; the failure report on the
    error stream gives the symbol and does not name the state. *)
Lemma unhandled_symbol_report_omits_state :
  fst (loop_body first_rule_only start "a" initial_world) = None
  /\ fst (main_over first_rule_only "a<") = -1
  /\ cerr (snd (main_over first_rule_only "a<"))
     = ("Error: Unhandled symbol:a" ++ endl)%string
  /\ index 0 (name start) (cerr (snd (main_over first_rule_only "a<"))) = None
  /\ cout (snd (main_over first_rule_only "a<"))
     = (dq ++ "start" ++ dq ++ "-a->")%string.
Proof. vm_compute. repeat split. Qed.

(** C9, amended. In every automaton, when the loop has read [pre] and
    [transitionWithChar] returns NULL on the next symbol [a] in state [s]:
    the loop is left by [return -1] with the rest of the file unread; the
    error stream receives the unhandled symbol (and not the state, whose
    name stands only in the trace line written to the standard output
    before the transition); [main] returns -1 without running the report
    loop, so the standard output ends with that trace line and the flagged
    list is neither printed nor emptied. *)
Theorem unhandled_symbol_halts_scan
    (A : Automaton) (pre : string) (a : ascii) (rest : string)
    (s : DFAstate) (w : World) :
  iterations A pre start initial_world = (Some s, w) ->
  fst (transitionWithChar A s (to_char (ch a))
         (put_cout ("-" ++ String a "->") (put_cout (String DQ (name s) ++ dq) w)))
    = None ->
  let r := scan_loop A (pre ++ String a rest) (Some start) 0 initial_world in
  returned r = Some (-1)
  /\ unread r = rest
  /\ main_over A (pre ++ String a rest) = (-1, world r)
  /\ cerr (world r) = (cerr w ++ "Error: Unhandled symbol:" ++ String a endl)%string
  /\ cout (world r) = ((cout w ++ String DQ (name s) ++ dq) ++ "-" ++ String a "->")%string
  /\ spamMessages (world r) = spamMessages w
  /\ currentMessageNum (world r) = currentMessageNum w.
Proof.
  intros Hit Hnull r.
  destruct (scan_loop_iterations A (String a rest) pre start 0 initial_world s w Hit)
    as (i & Heq).
  assert (Hr : r = mkLoopResult (Some (-1)) rest
                 (put_cerr ("Error: Unhandled symbol:" ++ String a endl)
                    (put_cout ("-" ++ String a "->")
                       (put_cout (String DQ (name s) ++ dq) w)))).
  { subst r. rewrite Heq. cbn [scan_loop]. unfold loop_body.
    rewrite char_of_int_ch. fold dq.
    destruct (transitionWithChar A s (to_char (ch a)) _) as [[s'|] w'] eqn:Ht;
      [discriminate Hnull|].
    rewrite (transition_none_world _ _ _ _ _ Ht).
    destruct rest; cbn [scan_loop]; now rewrite char_of_int_ch. }
  assert (Hmain : main_over A (pre ++ String a rest) = (-1, world r)).
  { unfold main_over. fold r. now rewrite Hr. }
  rewrite Hmain, Hr. repeat split.
Qed.

Lemma unhandled_symbol_halts_scan_witness :
  let r := scan_loop first_rule_only ("<" ++ String "D" "OC") (Some start) 0 initial_world in
  returned r = Some (-1) /\ unread r = "OC"%string.
Proof.
  destruct (unhandled_symbol_halts_scan first_rule_only "<" "D" "OC" (openDoc 0)
              (snd (iterations first_rule_only "<" start initial_world))
              eq_refl eq_refl) as (H1 & H2 & _).
  split; [exact H1|exact H2].
Defined.

(** ** The identifier digits *)

Lemma wrap32_small (z : Z) : -2147483648 <= z < 2147483648 -> wrap32 z = z.
Proof. intros H. unfold wrap32. rewrite Z.mod_small; lia. Qed.

Lemma digit_bounds (d : Z) :
  call_comparator digits d no_comparand = true -> 48 <= d <= 57.
Proof.
  cbn. intros H. apply andb_prop in H. destruct H as [H1 H2].
  apply Z.leb_le in H1, H2. lia.
Qed.

Lemma first_digit (d : Z) (w : World) :
  call_comparator digits d no_comparand = true ->
  currentMessageNum w = 0 ->
  transitionWithChar main_automaton (msg 2) d w
  = (Some (msgdig 0), with_id w (d - 48)).
Proof.
  intros Hd Hw. pose proof (digit_bounds d Hd) as Hb.
  symbolic_step (msg 2). cbn [call_comparator] in Hd. rewrite Hd.
  unfold call_consumer, with_id. rewrite Hw. cbn.
  now rewrite wrap32_small by lia.
Qed.

Lemma second_digit (d : Z) (w : World) :
  call_comparator digits d no_comparand = true ->
  0 <= currentMessageNum w <= 9 ->
  transitionWithChar main_automaton (msgdig 0) d w
  = (Some (msgdig 1), with_id w (currentMessageNum w * 10 + (d - 48))).
Proof.
  intros Hd Hw. pose proof (digit_bounds d Hd) as Hb.
  symbolic_step (msgdig 0). cbn [call_comparator] in Hd. rewrite Hd.
  change (ch " ") with 32. change (ch TAB) with 9.
  change (ch CR) with 13. change (ch NL) with 10.
  destruct (Z.eqb_spec d 60); [lia|].
  destruct (Z.eqb_spec d 32); [lia|].
  destruct (Z.eqb_spec d 9); [lia|].
  destruct (Z.eqb_spec d 13); [lia|].
  destruct (Z.eqb_spec d 10); [lia|].
  cbn [orb]. unfold call_consumer, with_id. cbn.
  rewrite (wrap32_small (currentMessageNum w * 10)) by lia.
  now rewrite wrap32_small by lia.
Qed.

(** One or two identifier digits are accumulated, most significant first,
    and the close marker of the identifier is then read. *)
Lemma identifier_of_one_or_two_digits (d1 d2 : Z) (w : World) :
  call_comparator digits d1 no_comparand = true ->
  call_comparator digits d2 no_comparand = true ->
  currentMessageNum w = 0 ->
  run main_automaton (msg 2) ([d1] ++ chars "</DOCID>") w
  = (Some (closeDocID 7), with_id w (d1 - 48))
  /\ run main_automaton (msg 2) ([d1; d2] ++ chars "</DOCID>") w
     = (Some (closeDocID 7), with_id w ((d1 - 48) * 10 + (d2 - 48))).
Proof.
  intros H1 H2 Hw. pose proof (digit_bounds d1 H1) as Hb.
  split.
  - cbn [app run]. rewrite (first_digit d1 w H1 Hw).
    vm_compute. reflexivity.
  - cbn [app run]. rewrite (first_digit d1 w H1 Hw).
    rewrite (second_digit d2 (with_id w (d1 - 48)) H2) by (cbn; lia).
    cbn [currentMessageNum with_id].
    generalize ((d1 - 48) * 10 + (d2 - 48)). intros n.
    vm_compute. reflexivity.
Qed.

(** C6 fails on the code from the third digit on: [msgdig 0] sends a
    second digit to [msgdig 1], which has no digit rule, so a third digit
    falls to the [everything] rule and returns to [start].  After
    [msg123] the identifier is 12, the record is abandoned and never
    flagged, while the same record with [msg12] is. *)
Theorem third_identifier_digit_abandons_record :
  (forall w, visited main_automaton (msg 2) (chars "123") w
             = [msgdig 0; msgdig 1; start])
  /\ (forall w, transitionWithChar main_automaton (msgdig 1) (ch "3") w
                = (Some start, w))
  /\ run main_automaton start (chars "<DOC><DOCID>msg123") initial_world
     = (Some start, mkWorld [] 12 "" "")
  /\ run main_automaton start (chars "<DOC><DOCID>msg12") initial_world
     = (Some (msgdig 1), mkWorld [] 12 "" "")
  /\ flagged (record_with "123" " win ") = []
  /\ flagged (record_with "12" " win ") = [12].
Proof. repeat split; try intros w; vm_compute; reflexivity. Qed.

(** ** Abandoning a candidate phrase *)

Ltac split_on_symbol c :=
  change (ch " ") with 32; change (ch DQ) with 34;
  repeat match goal with
         | |- context [c =? ?k] => destruct (Z.eqb_spec c k) as [->|?]; cbn
         end.

(** Outside [free_stuff 4], a phrase state that abandons its phrase on a
    symbol other than [<] takes the transition of the mid-token state. *)
Lemma abandoned_phrase_as_mid_token (s : DFAstate) (c : Z) (w : World) s' :
  phrase_state s = true -> s <> free_stuff 4 ->
  fst (transitionWithChar main_automaton s c w) = Some s' ->
  s' = delimited \/ s' = notdelimited ->
  c <> ch "<" ->
  transitionWithChar main_automaton s c w
  = transitionWithChar main_automaton notdelimited c w.
Proof.
  intros Hp Hs. assert (Hd : declared s = true) by (destruct s; trivial; discriminate Hp).
  symbolic_step notdelimited. change (ch "<") with 60.
  each_state Hd; try discriminate Hp; try (exfalso; now apply Hs);
    match goal with
    | |- context [transitionWithChar main_automaton ?x c w] => symbolic_step x
    end;
    split_on_symbol c; intros [= <-] [H|H] Hc;
    first [reflexivity | discriminate H | contradiction | lia].
Qed.

(** [free_stuff 4], reached after the space of the free phrases, takes
    the transition of the within-delimiter state on every symbol that does
    not start one of its four phrases. *)
Lemma free_stuff_4_as_delimited (c : Z) (w : World) s' :
  fst (transitionWithChar main_automaton (free_stuff 4) c w) = Some s' ->
  ~ In s' [free_access 0; free_software 0; free_trials 0; free_vacation 0] ->
  transitionWithChar main_automaton (free_stuff 4) c w
  = transitionWithChar main_automaton delimited c w.
Proof.
  symbolic_step delimited. symbolic_step (free_stuff 4).
  split_on_symbol c; intros [= <-] H; try reflexivity;
    exfalso; apply H; cbn; tauto.
Qed.

(** Every other phrase state sends [<] to the mid-token state. *)
Lemma phrase_state_open_angle (s : DFAstate) (w : World) :
  phrase_state s = true -> s <> free_stuff 4 ->
  transitionWithChar main_automaton s (ch "<") w = (Some notdelimited, w).
Proof.
  intros Hp Hs. assert (Hd : declared s = true) by (destruct s; trivial; discriminate Hp).
  each_state Hd; try discriminate Hp; try (exfalso; now apply Hs);
    vm_compute; reflexivity.
Qed.

(** C8 fails on the code for the symbol [<]: the generic scanning states
    send it to [closeDoc 0], the phrase states (here [win 1]) have no rule
    for it and send it to [notdelimited].  A body ending in [wi] hides its
    close marker; the next record is then scanned as body text of the
    first, and its phrase is flagged under the first identifier. *)
Theorem open_angle_in_phrase_state_misread :
  (forall w, transitionWithChar main_automaton (win 1) (ch "<") w
             = (Some notdelimited, w))
  /\ (forall w, transitionWithChar main_automaton notdelimited (ch "<") w
                = (Some (closeDoc 0), w))
  /\ (forall w, transitionWithChar main_automaton delimited (ch "<") w
                = (Some (closeDoc 0), w))
  /\ (forall w, run main_automaton delimited (chars "wi</DOC>") w
                = (Some notdelimited, w))
  /\ (forall w, run main_automaton delimited (chars "xi</DOC>") w
                = (Some start, w))
  /\ flagged (record_with "1" "wi" ++ record_with "2" " win ") = [1]
  /\ flagged (record_with "1" "xi" ++ record_with "2" " win ") = [2].
Proof. repeat split; try intros w; vm_compute; reflexivity. Qed.

(** * Further properties of the program *)

(** ** Adding rules *)

Lemma first_match_app (l1 l2 : list transitionRecord) (c : Z) (w : World) :
  first_match (l1 ++ l2) c w =
  match first_match l1 c w with
  | (Some t, w') => (Some t, w')
  | (None, _) => first_match l2 c w
  end.
Proof.
  induction l1 as [|i l1 IH]; [reflexivity|].
  cbn [app first_match].
  now destruct (call_comparator (onSymbols i) c (comparedTo i)).
Qed.

Lemma same_state_refl (s : DFAstate) : same_state s s = true.
Proof. unfold same_state. now destruct (DFAstate_eq_dec s s). Qed.

Lemma transition_after_addTransition
    (A : Automaton) (s : DFAstate) (which : charComparator) (where_ : DFAstate)
    (does : option charConsumer) (what : Z) (x : DFAstate) (c : Z) (w : World) :
  transitionWithChar (addTransition s which where_ does what A) x c w =
  if same_state x s then
    match transitionWithChar A x c w with
    | (Some t, w') => (Some t, w')
    | (None, _) =>
        if call_comparator which c what
        then (Some where_,
              match does with
              | Some f => call_consumer f c w
              | None => w
              end)
        else (None, w)
    end
  else transitionWithChar A x c w.
Proof.
  rewrite !transitionWithChar_first_match. unfold addTransition.
  destruct (same_state x s); [|reflexivity].
  rewrite first_match_app. reflexivity.
Qed.

(** X1. Rules added earlier take precedence: after [addTransition] on
    state [s], a symbol that [s] already handled is handled as before; the
    new rule is consulted only for the symbols [s] left unhandled, and the
    other states are not affected. *)
Theorem addTransition_precedence
    (A : Automaton) (s : DFAstate) (which : charComparator) (where_ : DFAstate)
    (does : option charConsumer) (what : Z) (x : DFAstate) (c : Z) (w : World) :
  transitionWithChar (addTransition s which where_ does what A) x c w =
  if same_state x s then
    match transitionWithChar A x c w with
    | (Some t, w') => (Some t, w')
    | (None, _) =>
        if call_comparator which c what
        then (Some where_,
              match does with
              | Some f => call_consumer f c w
              | None => w
              end)
        else (None, w)
    end
  else transitionWithChar A x c w.
Proof. exact (transition_after_addTransition A s which where_ does what x c w). Qed.

(** X2. The default comparand of [addTransition] matches no character: a
    [justChar] rule added without a comparand changes the transition of no
    state on any byte that [file.get()] can return. *)
Theorem justChar_default_comparand_never_matches
    (A : Automaton) (s t : DFAstate) (does : option charConsumer)
    (x : DFAstate) (i : Z) (w : World) :
  0 <= i <= 255 ->
  call_comparator justChar (to_char i) no_comparand = false
  /\ transitionWithChar (addTransition s justChar t does no_comparand A) x (to_char i) w
     = transitionWithChar A x (to_char i) w.
Proof.
  intros Hi.
  assert (Hno : call_comparator justChar (to_char i) no_comparand = false).
  { cbn. unfold to_char, no_comparand. apply Z.eqb_neq.
    destruct (128 <=? i) eqn:E; [apply Z.leb_le in E|apply Z.leb_gt in E]; lia. }
  split; [exact Hno|].
  rewrite transition_after_addTransition, Hno.
  destruct (same_state x s); [|reflexivity].
  destruct (transitionWithChar A x (to_char i) w) as [[u|] w'] eqn:Ht; [reflexivity|].
  now rewrite (transition_none_world _ _ _ _ _ Ht).
Qed.

Lemma justChar_default_comparand_never_matches_witness :
  transitionWithChar
    (addTransition start justChar isSpam (Some recordSpam) no_comparand main_automaton)
    start (to_char 255) initial_world
  = transitionWithChar main_automaton start (to_char 255) initial_world.
Proof.
  apply (proj2 (justChar_default_comparand_never_matches
                  main_automaton start isSpam (Some recordSpam) start 255
                  initial_world ltac:(lia))).
Defined.

(** ** What a scan does to the globals and the streams *)

Lemma append_nil_r (s : string) : (s ++ "")%string = s.
Proof. induction s as [|a s IH]; cbn; [reflexivity|now rewrite IH]. Qed.

Lemma append_assoc (s1 s2 s3 : string) :
  (s1 ++ (s2 ++ s3))%string = ((s1 ++ s2) ++ s3)%string.
Proof. induction s1 as [|a s1 IH]; cbn; [reflexivity|now rewrite IH]. Qed.

Lemma call_consumer_grows (f : charConsumer) (c : Z) (w : World) :
  (exists l, spamMessages (call_consumer f c w) = spamMessages w ++ l)
  /\ (exists o, cout (call_consumer f c w) = (cout w ++ o)%string).
Proof.
  destruct f; cbn; split;
    first [ (exists []; now rewrite app_nil_r)
          | now exists [currentMessageNum w]
          | (exists ""%string; now rewrite append_nil_r)
          | (eexists; reflexivity) ].
Qed.

Lemma transition_grows (A : Automaton) (s : DFAstate) (c : Z) (w : World) o w' :
  transitionWithChar A s c w = (o, w') ->
  (exists l, spamMessages w' = spamMessages w ++ l)
  /\ (exists out, cout w' = (cout w ++ out)%string).
Proof.
  destruct o as [s'|]; intros Ht.
  - apply transition_some_rule in Ht. destruct Ht as (r & _ & _ & _ & ->).
    unfold act. destruct (doing r); [apply call_consumer_grows|].
    split; [exists []; now rewrite app_nil_r|exists ""%string; now rewrite append_nil_r].
  - rewrite (transition_none_world _ _ _ _ _ Ht).
    split; [exists []; now rewrite app_nil_r|exists ""%string; now rewrite append_nil_r].
Qed.

(** X3. In every automaton the scan loop never removes or reorders what
    it has collected or written: the flagged list when the loop is left is
    the list on entry followed by the identifiers appended in between,
    and both streams are extended at their end only. *)
Theorem scan_loop_only_appends (A : Automaton) (file : string) :
  forall (s : option DFAstate) (input : Z) (w : World),
    let r := scan_loop A file s input w in
    (exists l, spamMessages (world r) = spamMessages w ++ l)
    /\ (exists out, cout (world r) = (cout w ++ out)%string)
    /\ (exists err, cerr (world r) = (cerr w ++ err)%string).
Proof.
  induction file as [|a rest IH]; intros [s|] input w; cbn [scan_loop].
  - cbn. repeat split;
      [exists []; now rewrite app_nil_r | eexists; reflexivity
      | exists ""%string; now rewrite append_nil_r].
  - cbn. repeat split;
      [exists []; now rewrite app_nil_r | exists ""%string; now rewrite append_nil_r
      | eexists; reflexivity].
  - unfold loop_body.
    set (w2 := put_cout _ (put_cout _ w)).
    destruct (transitionWithChar A s (to_char (ch a)) w2) as [next w3] eqn:Ht.
    destruct (transition_grows _ _ _ _ _ _ Ht) as ((l1 & Hl1) & (o1 & Ho1)).
    pose proof (transition_cerr _ _ _ _ _ _ Ht) as He1.
    destruct (IH next (ch a) w3) as ((l2 & Hl2) & (o2 & Ho2) & (e2 & He2)).
    repeat split.
    + exists (l1 ++ l2). rewrite Hl2, Hl1. cbn. now rewrite app_assoc.
    + eexists. rewrite Ho2, Ho1. cbn. rewrite <- !append_assoc. reflexivity.
    + exists e2. rewrite He2, He1. reflexivity.
  - cbn. repeat split;
      [exists []; now rewrite app_nil_r | exists ""%string; now rewrite append_nil_r
      | eexists; reflexivity].
Qed.

(** X4. For every automaton and file, [main] returns 0 or -1: 0 when no
    transition along the file is unhandled, -1 as soon as one is. *)
Theorem main_exit_code (A : Automaton) (file : string) :
  (fst (main_over A file) = 0
   /\ exists s w, run A start (chars file) initial_world = (Some s, w))
  \/ (fst (main_over A file) = -1
      /\ fst (run A start (chars file) initial_world) = None).
Proof.
  pose proof (scan_loop_run A file start 0 initial_world initial_world
                (conj eq_refl eq_refl)) as H.
  cbv zeta in H. unfold main_over.
  destruct (run A start (chars file) initial_world) as [[s|] w'].
  - left. destruct H as [-> _]. split; [reflexivity|now exists s, w'].
  - right. rewrite H. now split.
Qed.

Lemma report_loop_spec (pending : list Z) (w : World) :
  report_loop pending w
  = mkWorld [] (currentMessageNum w) (cout w ++ report_text pending) (cerr w).
Proof.
  revert w. induction pending as [|x l IH]; intros w; cbn [report_loop report_text fold_right].
  - now rewrite append_nil_r.
  - rewrite IH. cbn. f_equal. now rewrite <- append_assoc.
Qed.

(** X5. On every file [main] returns 0 with nothing on the error stream;
    after the trace of the scan the standard output ends with the report
    line, which lists the flagged identifiers in the order in which they
    were appended, each after one space; the flagged list is empty when
    [main] returns. *)
Theorem main_reports_flagged (file : string) :
  let r := scan_loop main_automaton file (Some start) 0 initial_world in
  main file
  = (0, mkWorld [] (currentMessageNum (world r))
          (((cout (world r) ++ "The following messages were spam:")
            ++ report_text (flagged file)) ++ endl)
          ""%string).
Proof.
  intros r.
  destruct (scan_loop_declared file start 0 initial_world eq_refl) as (H1 & _ & H3).
  fold r in H1, H3. unfold main, main_over. fold r. rewrite H1.
  rewrite report_loop_spec. cbn. unfold flagged. fold r.
  cbn in H3. now rewrite H3.
Qed.

(** ** Reachable states *)

Lemma visited_reachable (cs : list Z) :
  forall (s : DFAstate) (w : World),
    reachable s -> Forall reachable (visited main_automaton s cs w).
Proof.
  induction cs as [|c cs IH]; intros s w Hs; cbn [visited]; [constructor|].
  destruct (transitionWithChar main_automaton s c w) as [[s'|] w'] eqn:Ht;
    [|constructor].
  pose proof (reachable_step s c w s' w' Hs Ht) as Hs'.
  constructor; [exact Hs'|now apply IH].
Qed.

Lemma same_state_eq (x y : DFAstate) : same_state x y = true -> x = y.
Proof. unfold same_state. now destruct (DFAstate_eq_dec x y). Qed.

(** X6. No state object is dead: a state is reachable from [start] in
    the automaton of [main] exactly when it is one of the declared state
    objects. *)
Theorem reachable_iff_declared (s : DFAstate) :
  reachable s <-> declared s = true.
Proof.
  split; [apply reachable_declared|].
  intros Hs. apply declared_all_states in Hs.
  assert (Hcover : forallb (fun x => existsb (same_state x)
                     (start :: visited main_automaton start (chars tour) initial_world))
                     all_states = true) by (vm_compute; reflexivity).
  rewrite forallb_forall in Hcover. specialize (Hcover s Hs).
  apply existsb_exists in Hcover. destruct Hcover as (y & Hy & Heq).
  apply same_state_eq in Heq. subst y.
  destruct Hy as [<-|Hy]; [exact reachable_start|].
  pose proof (visited_reachable (chars tour) start initial_world reachable_start) as Hall.
  rewrite Forall_forall in Hall. now apply Hall.
Qed.

(** ** The range of the identifier *)

Lemma rules_keep_id_bound (s : DFAstate) (r : transitionRecord) :
  declared s = true -> In r (main_automaton s) -> keeps_id_bound s r = true.
Proof.
  intros Hs Hr. apply declared_all_states in Hs.
  assert (H : forallb (fun x => forallb (keeps_id_bound x) (main_automaton x))
                      all_states = true) by (vm_compute; reflexivity).
  rewrite forallb_forall in H. specialize (H s Hs).
  rewrite forallb_forall in H. exact (H r Hr).
Qed.

Lemma id_bound_le_99 (s : DFAstate) : 0 <= id_bound s <= 99.
Proof.
  destruct s as [|i|i|i|i|i| | | |i|i|i|i|i|i|i|i| |i|i]; cbn; try lia;
    repeat (destruct i as [|i]; cbn; try lia).
Qed.

Lemma step_id_invariant (s : DFAstate) (c : Z) (w : World) s' w' :
  declared s = true ->
  transitionWithChar main_automaton s c w = (Some s', w') ->
  id_invariant s w -> id_invariant s' w'.
Proof.
  intros Hs Ht [Hcur Hall].
  destruct (transition_some_rule _ _ _ _ _ _ Ht) as (r & Hin & Hacc & -> & ->).
  pose proof (rules_keep_id_bound s r Hs Hin) as Hk.
  pose proof (id_bound_le_99 s) as Hb. pose proof (id_bound_le_99 (to r)) as Hb'.
  unfold keeps_id_bound in Hk. unfold act, accepts in *.
  destruct (doing r) as [[]|]; unfold id_invariant; cbn.
  - apply Z.leb_le in Hk. split; [lia|exact Hall].
  - split; [lia|exact Hall].
  - destruct (onSymbols r); try discriminate Hk.
    apply Z.leb_le in Hk. pose proof (digit_bounds c Hacc) as Hd.
    rewrite (wrap32_small (currentMessageNum w * 10)) by lia.
    rewrite wrap32_small by lia. split; [lia|exact Hall].
  - apply Z.leb_le in Hk. split; [lia|].
    apply Forall_app. split; [exact Hall|]. constructor; [lia|constructor].
  - apply Z.leb_le in Hk. split; [lia|exact Hall].
Qed.

Lemma run_id_invariant (cs : list Z) :
  forall (s : DFAstate) (w : World),
    declared s = true -> id_invariant s w ->
    exists s' w', run main_automaton s cs w = (Some s', w')
                  /\ declared s' = true /\ id_invariant s' w'.
Proof.
  induction cs as [|c cs IH]; intros s w Hs Hinv.
  - now exists s, w.
  - destruct (declared_step_defined s c w Hs) as (s1 & w1 & Ht).
    cbn [run]. rewrite Ht.
    exact (IH s1 w1 (step_declared _ _ _ _ _ Hs Ht)
              (step_id_invariant _ _ _ _ _ Hs Ht Hinv)).
Qed.

(** X7. The identifier never leaves the range 0..99: at most two digits
    are accumulated after [newMsg] has cleared it, so the [int]
    accumulator cannot overflow in the program as built, and on every file
    every flagged identifier and the identifier held at end of input lie
    between 0 and 99. *)
Theorem identifier_within_two_digits (file : string) :
  Forall (fun x => 0 <= x <= 99) (flagged file)
  /\ 0 <= currentMessageNum
            (world (scan_loop main_automaton file (Some start) 0 initial_world)) <= 99.
Proof.
  assert (Hinit : id_invariant start initial_world)
    by (split; [cbn; lia|constructor]).
  destruct (run_id_invariant (chars file) start initial_world eq_refl Hinit)
    as (s' & w' & Hrun & _ & Hcur & Hall).
  pose proof (scan_loop_run main_automaton file start 0 initial_world initial_world
                (conj eq_refl eq_refl)) as H.
  cbv zeta in H. rewrite Hrun in H. destruct H as (_ & Hl & Hc).
  unfold flagged. rewrite Hl, Hc. split; [exact Hall|].
  pose proof (id_bound_le_99 s'). lia.
Qed.

(** ** The text behind a state *)

Lemma ends_with_split (t l : list Z) :
  ends_with t l = true -> exists k, l = k ++ t.
Proof.
  unfold ends_with, same_chars.
  generalize (List.length l - List.length t)%nat. intros n.
  destruct (list_eq_dec Z.eq_dec (skipn n l) t) as [E|_]; [|discriminate]. intros _.
  exists (firstn n l). rewrite <- E. symmetry. apply firstn_skipn.
Qed.

Lemma rules_read_matched_text (s : DFAstate) (r : transitionRecord) :
  declared s = true -> In r (main_automaton s) -> reads_matched_text s r = true.
Proof.
  intros Hs Hr. apply declared_all_states in Hs.
  assert (H : forallb (fun x => forallb (reads_matched_text x) (main_automaton x))
                      all_states = true) by (vm_compute; reflexivity).
  rewrite forallb_forall in H. specialize (H s Hs).
  rewrite forallb_forall in H. exact (H r Hr).
Qed.

Lemma step_matched_text (s : DFAstate) (c : Z) (w : World) s' w' (read : list Z) :
  declared s = true ->
  transitionWithChar main_automaton s c w = (Some s', w') ->
  (exists pre, read = pre ++ chars (matched_text s)) ->
  exists pre, read ++ [c] = pre ++ chars (matched_text s').
Proof.
  intros Hs Ht (pre & Hread).
  destruct (transition_some_rule _ _ _ _ _ _ Ht) as (r & Hin & Hacc & -> & _).
  pose proof (rules_read_matched_text s r Hs Hin) as Hk.
  unfold reads_matched_text in Hk.
  destruct (chars (matched_text (to r))) as [|t0 t] eqn:Et.
  - exists (read ++ [c]). now rewrite app_nil_r.
  - unfold accepts in Hacc.
    destruct (onSymbols r); try discriminate Hk.
    cbn in Hacc. apply Z.eqb_eq in Hacc. subst c.
    destruct (ends_with_split _ _ Hk) as (k & Hk').
    exists (pre ++ k). rewrite Hread, <- !app_assoc. now rewrite Hk'.
Qed.

Lemma run_declared (cs : list Z) :
  forall (s : DFAstate) (w : World) s' w',
    declared s = true ->
    run main_automaton s cs w = (Some s', w') -> declared s' = true.
Proof.
  induction cs as [|c cs IH]; intros s w s' w' Hs Hrun.
  - now injection Hrun as <- _.
  - cbn [run] in Hrun.
    destruct (transitionWithChar main_automaton s c w) as [[s1|] w1] eqn:Ht;
      [|discriminate Hrun].
    exact (IH s1 w1 s' w' (step_declared _ _ _ _ _ Hs Ht) Hrun).
Qed.

Lemma run_matched_text (cs : list Z) :
  forall (w : World) (s : DFAstate) (w' : World),
    run main_automaton start cs w = (Some s, w') ->
    exists pre, cs = pre ++ chars (matched_text s).
Proof.
  induction cs as [|c cs IH] using rev_ind; intros w s w' Hrun.
  - injection Hrun as <- _. now exists [].
  - rewrite run_app in Hrun.
    destruct (run main_automaton start cs w) as [[s1|] w1] eqn:Hrun1;
      [|discriminate Hrun].
    cbn [run] in Hrun.
    destruct (transitionWithChar main_automaton s1 c w1) as [[s2|] w2] eqn:Ht;
      [|discriminate Hrun].
    injection Hrun as <- <-.
    exact (step_matched_text s1 c w1 s2 w2 cs
             (run_declared cs start w s1 w1 eq_refl Hrun1) Ht (IH w s1 w1 Hrun1)).
Qed.

(** X8. The state records the text just read: whatever input has been
    read from [start], it ends with the marker or phrase prefix that
    belongs to the state reached, as [<DOC] in [openDoc 3], [</DOCID] in
    [closeDocID 6], [winn] in [win 3] or [free soft] in [free_software 3]. *)
Theorem state_records_text_read (cs : list Z) :
  forall (w : World) (s : DFAstate) (w' : World),
    run main_automaton start cs w = (Some s, w') ->
    exists pre, cs = pre ++ chars (matched_text s).
Proof. exact (run_matched_text cs). Qed.

Lemma state_records_text_read_witness :
  exists pre, chars "<x<DOC" = pre ++ chars (matched_text (openDoc 3)).
Proof.
  apply (state_records_text_read (chars "<x<DOC") initial_world (openDoc 3) initial_world).
  reflexivity.
Defined.

(** ** Which texts flag a record *)

Lemma flagging_rules (s : DFAstate) (r : transitionRecord) :
  declared s = true -> In r (main_automaton s) -> doing r = Some recordSpam ->
  onSymbols r = delimiters /\ In (matched_text s) flagging_texts.
Proof.
  intros Hs Hr Hd.
  each_state Hs; each_rule Hr; try discriminate Hd;
    (split; [reflexivity|vm_compute; tauto]).
Qed.

(** X9. A record is flagged only by a delimiter that follows one of the
    texts [win], [winner], [winners], [winnings], [free access],
    [free software], [free trials], [free vacation]: when a symbol read
    after the input [pre] changes the flagged list, the symbol is a space
    or a double quote, [pre] ends with one of these texts, and the change
    is the current identifier appended. *)
Theorem flagged_only_after_phrase
    (pre : list Z) (c : Z) (w : World) (s : DFAstate) (w1 : World) o (w2 : World) :
  run main_automaton start pre w = (Some s, w1) ->
  transitionWithChar main_automaton s c w1 = (o, w2) ->
  spamMessages w2 <> spamMessages w1 ->
  call_comparator delimiters c no_comparand = true
  /\ (exists text p, In text flagging_texts /\ pre = p ++ chars text)
  /\ o = Some isSpam
  /\ spamMessages w2 = spamMessages w1 ++ [currentMessageNum w1].
Proof.
  intros Hrun Ht Hneq.
  pose proof (run_declared pre start w s w1 eq_refl Hrun) as Hs.
  destruct o as [s'|];
    [|rewrite (transition_none_world _ _ _ _ _ Ht) in Hneq; now contradiction Hneq].
  destruct (transition_some_rule _ _ _ _ _ _ Ht) as (r & Hin & Hacc & -> & ->).
  unfold act in *.
  destruct (doing r) as [[]|] eqn:Hd; try (now contradiction Hneq).
  destruct (flagging_rules s r Hs Hin Hd) as (Hg & Htext).
  destruct (recordSpam_rules s r Hs Hin Hd) as (Hto & _).
  destruct (run_matched_text pre w s w1 Hrun) as (p & Hp).
  unfold accepts in Hacc. rewrite Hg in Hacc.
  repeat split.
  - exact Hacc.
  - now exists (matched_text s), p.
  - now rewrite Hto.
Qed.

Lemma flagged_only_after_phrase_witness :
  exists text p, In text flagging_texts
                 /\ chars (header "7" ++ "a winner") = p ++ chars text.
Proof.
  refine (proj1 (proj2 (flagged_only_after_phrase
            (chars (header "7" ++ "a winner")) (ch " ") initial_world
            (winners 1) (mkWorld [] 7 "" "") (Some isSpam) (mkWorld [7] 7 "" "")
            _ _ _))).
  - vm_compute. reflexivity.
  - vm_compute. reflexivity.
  - discriminate.
Defined.

Lemma delimiters_cases (d : Z) :
  call_comparator delimiters d no_comparand = true -> d = ch " " \/ d = ch DQ.
Proof.
  cbn. intros H. apply orb_prop in H.
  destruct H as [H|H]; apply Z.eqb_eq in H; auto.
Qed.

Lemma phrase_between_delimiters
    (s : DFAstate) (d0 d : Z) (text : string) (w : World) :
  in_body s = true -> spam_zone s = false ->
  call_comparator delimiters d0 no_comparand = true ->
  call_comparator delimiters d no_comparand = true ->
  In text flagging_texts ->
  run main_automaton s ([d0] ++ chars text ++ [d]) w
  = (Some isSpam, call_consumer recordSpam d w).
Proof.
  intros Hb Hz Hd0 Hd Htext.
  assert (Hs : declared s = true).
  { destruct s; trivial; cbn in Hb; try exact Hb; discriminate Hb. }
  apply delimiters_cases in Hd0, Hd.
  cbn in Htext.
  repeat (destruct Htext as [<-|Htext]); [..|contradiction];
    destruct Hd0 as [-> | ->]; destruct Hd as [-> | ->];
    each_state Hs; try discriminate Hb; try discriminate Hz;
    vm_compute; reflexivity.
Qed.

(** X10. Inside a record body that is not yet flagged, each of the
    texts [win], [winner], [winners], [winnings], [free access],
    [free software], [free trials], [free vacation] standing between two
    delimiters flags the record: from every body state outside the flagged
    sink, a delimiter, the text and a delimiter lead to [isSpam]; the
    flagged list is then the list before followed by the current
    identifier, once, and the identifier and the streams are as before. *)
Theorem delimited_phrase_flags
    (s : DFAstate) (d0 d : Z) (text : string) (w : World) :
  in_body s = true -> spam_zone s = false ->
  call_comparator delimiters d0 no_comparand = true ->
  call_comparator delimiters d no_comparand = true ->
  In text flagging_texts ->
  run main_automaton s ([d0] ++ chars text ++ [d]) w
  = (Some isSpam,
     mkWorld (spamMessages w ++ [currentMessageNum w])
             (currentMessageNum w) (cout w) (cerr w)).
Proof.
  intros Hb Hz Hd0 Hd Htext.
  rewrite (phrase_between_delimiters s d0 d text w Hb Hz Hd0 Hd Htext).
  reflexivity.
Qed.

Lemma delimited_phrase_flags_witness :
  run main_automaton (closeDoc 2) ([ch DQ] ++ chars "free trials" ++ [ch " "])
      (mkWorld [3] 7 "" "")
  = (Some isSpam, mkWorld [3; 7] 7 "" "").
Proof.
  apply (delimited_phrase_flags (closeDoc 2) (ch DQ) (ch " ") "free trials"
           (mkWorld [3] 7 "" "")); try reflexivity.
  cbn. tauto.
Defined.

(** ** Inside the body *)

Lemma in_body_declared (s : DFAstate) : in_body s = true -> declared s = true.
Proof. destruct s; cbn; trivial; discriminate. Qed.

Lemma body_rules (s : DFAstate) (r : transitionRecord) :
  in_body s = true -> In r (main_automaton s) ->
  (doing r = None \/ doing r = Some recordSpam)
  /\ (in_body (to r) = true
      \/ (to r = start /\ doing r = None /\ onSymbols r = justChar
          /\ comparedTo r = ch ">" /\ matched_text s = "</DOC"%string)).
Proof.
  intros Hb Hr. pose proof (in_body_declared s Hb) as Hs.
  each_state Hs; try discriminate Hb; each_rule Hr;
    (split; [first [left; reflexivity | right; reflexivity]|]);
    first [left; reflexivity | right; repeat split; reflexivity].
Qed.

Lemma body_step (s : DFAstate) (c : Z) (w : World) s' w' :
  in_body s = true ->
  transitionWithChar main_automaton s c w = (Some s', w') ->
  currentMessageNum w' = currentMessageNum w
  /\ (in_body s' = true \/ s' = start).
Proof.
  intros Hb Ht.
  destruct (transition_some_rule _ _ _ _ _ _ Ht) as (r & Hin & _ & -> & ->).
  destruct (body_rules s r Hb Hin) as ([Hd|Hd] & Hto); unfold act; rewrite Hd;
    (split; [reflexivity|]); destruct Hto as [Hto|(Hto & _)]; auto.
Qed.

(** X11. The identifier is fixed while a body is scanned: from a body
    state, as long as [start] is not entered, every symbol leads to a body
    state again, the identifier keeps its value, and the flagged list is
    unchanged or extended by that one value; a flagged record is thus
    reported under the identifier held when its body began. *)
Theorem identifier_fixed_in_body (cs : list Z) :
  forall (s : DFAstate) (w : World),
    in_body s = true ->
    ~ In start (visited main_automaton s cs w) ->
    exists s' w',
      run main_automaton s cs w = (Some s', w')
      /\ in_body s' = true
      /\ currentMessageNum w' = currentMessageNum w
      /\ (spamMessages w' = spamMessages w
          \/ (spam_zone s' = true
              /\ spamMessages w' = spamMessages w ++ [currentMessageNum w])).
Proof.
  induction cs as [|c cs IH]; intros s w Hb Hfree.
  - exists s, w. auto.
  - pose proof (in_body_declared s Hb) as Hs.
    destruct (declared_step_defined s c w Hs) as (s1 & w1 & Ht).
    cbn [run visited] in *. rewrite Ht in *.
    destruct (body_step _ _ _ _ _ Hb Ht) as (Hcur & [Hb1|Hst]);
      [|exfalso; apply Hfree; left; exact Hst].
    assert (Hfree1 : ~ In start (visited main_automaton s1 cs w1))
      by (intros Hin; apply Hfree; now right).
    destruct (step_appends_at_most_once _ _ _ _ _ Hs Ht) as [Heq|(-> & _ & Heq)].
    + destruct (IH s1 w1 Hb1 Hfree1) as (s' & w' & Hrun & Hb' & Hcur' & Hl).
      exists s', w'. rewrite Hcur, Heq in *. auto.
    + destruct (spam_zone_frozen cs isSpam w1 eq_refl Hfree1) as (s' & Hrun & Hz).
      exists s', w1. repeat split; trivial.
      * destruct s'; cbn in Hz |- *; trivial; discriminate Hz.
      * right. now split.
Qed.

Lemma identifier_fixed_in_body_witness :
  exists s' w',
    run main_automaton delimited (chars "a win b free access c") (mkWorld [] 7 "" "")
    = (Some s', w')
    /\ in_body s' = true
    /\ currentMessageNum w' = 7
    /\ (spamMessages w' = []
        \/ (spam_zone s' = true /\ spamMessages w' = [] ++ [7])).
Proof.
  apply (identifier_fixed_in_body (chars "a win b free access c") delimited
           (mkWorld [] 7 "" "")).
  - reflexivity.
  - vm_compute. intros H.
    repeat (destruct H as [H|H]; [discriminate H|]). exact H.
Defined.

(** X12. A body is left for [start] only by its close marker: when the
    input [pre] read from [start] has led into a body state and the next
    symbol leads to [start], the input read ends with [</DOC>], and that
    transition leaves the globals untouched. *)
Theorem body_left_by_close_marker
    (pre : list Z) (c : Z) (w : World) (s : DFAstate) (w1 w2 : World) :
  run main_automaton start pre w = (Some s, w1) ->
  in_body s = true ->
  transitionWithChar main_automaton s c w1 = (Some start, w2) ->
  (exists p, pre ++ [c] = p ++ chars "</DOC>") /\ w2 = w1.
Proof.
  intros Hrun Hb Ht.
  destruct (transition_some_rule _ _ _ _ _ _ Ht) as (r & Hin & Hacc & Hto & ->).
  destruct (body_rules s r Hb Hin) as (_ & [Hb'|(_ & Hd & Hg & Hc & Htext)]).
  - rewrite <- Hto in Hb'. discriminate Hb'.
  - unfold accepts in Hacc. rewrite Hg, Hc in Hacc. apply Z.eqb_eq in Hacc. subst c.
    destruct (run_matched_text pre w s w1 Hrun) as (p & Hp).
    split; [|unfold act; now rewrite Hd].
    exists p. rewrite Hp, Htext, <- app_assoc. reflexivity.
Qed.

Lemma body_left_by_close_marker_witness :
  exists p, chars (header "7" ++ "text</DOC") ++ [ch ">"] = p ++ chars "</DOC>".
Proof.
  refine (proj1 (body_left_by_close_marker
            (chars (header "7" ++ "text</DOC")) (ch ">") initial_world
            (closeDoc 4) (mkWorld [] 7 "" "") (mkWorld [] 7 "" "") _ _ _)).
  - vm_compute. reflexivity.
  - reflexivity.
  - vm_compute. reflexivity.
Defined.

(** ** Characters outside ASCII *)

Lemma rules_quiet_catch_all (s : DFAstate) :
  declared s = true -> quiet_catch_all (main_automaton s) = true.
Proof.
  intros Hs. apply declared_all_states in Hs.
  assert (H : forallb (fun x => quiet_catch_all (main_automaton x)) all_states = true)
    by (vm_compute; reflexivity).
  rewrite forallb_forall in H. exact (H s Hs).
Qed.

Lemma ascii_only_rejects (r : transitionRecord) (c : Z) :
  ascii_only r = true -> c < 0 \/ 127 < c -> accepts r c = false.
Proof.
  unfold ascii_only, accepts. intros Hr Hc.
  destruct (onSymbols r); try discriminate Hr; cbn.
  - apply andb_false_iff. destruct Hc; [left; apply Z.leb_gt|right; apply Z.leb_gt]; lia.
  - apply andb_prop in Hr. destruct Hr as [H1 H2].
    apply Z.leb_le in H1, H2. apply Z.eqb_neq. lia.
  - repeat (apply orb_false_iff; split); apply Z.eqb_neq; lia.
  - repeat (apply orb_false_iff; split); apply Z.eqb_neq; lia.
Qed.

(** X13. No Unicode handling: in every declared state a character
    outside 0..127 (a byte from 128 on, whether [char] is signed or not)
    is taken by the last rule of the state, its [everything] rule, and no
    action runs. *)
Theorem non_ascii_takes_catch_all (s : DFAstate) (c : Z) (w : World) :
  declared s = true -> c < 0 \/ 127 < c ->
  exists before r,
    main_automaton s = before ++ [r] /\ onSymbols r = everything
    /\ transitionWithChar main_automaton s c w = (Some (to r), w).
Proof.
  intros Hs Hc. pose proof (rules_quiet_catch_all s Hs) as Hq.
  unfold quiet_catch_all in Hq.
  destruct (rev (main_automaton s)) as [|r l] eqn:E; [discriminate Hq|].
  apply andb_prop in Hq. destruct Hq as [Hq Hbefore].
  apply andb_prop in Hq. destruct Hq as [Hev Hquiet].
  assert (Hrules : main_automaton s = rev l ++ [r])
    by (rewrite <- (rev_involutive (main_automaton s)), E; reflexivity).
  assert (Hr : onSymbols r = everything)
    by (destruct (onSymbols r); (reflexivity || discriminate Hev)).
  exists (rev l), r. repeat split; trivial.
  rewrite transitionWithChar_first_match, Hrules.
  rewrite first_match_skips.
  - cbn [first_match]. rewrite Hr. cbn. now destruct (doing r).
  - intros q Hq. apply ascii_only_rejects; [|exact Hc].
    rewrite forallb_forall in Hbefore. apply Hbefore. now apply in_rev.
Qed.

Lemma non_ascii_takes_catch_all_witness :
  exists before r,
    main_automaton (win 2) = before ++ [r] /\ onSymbols r = everything
    /\ transitionWithChar main_automaton (win 2) (to_char 233) initial_world
       = (Some (to r), initial_world).
Proof.
  apply non_ascii_takes_catch_all; [reflexivity|]. left. reflexivity.
Defined.

(** ** Printing and accumulating identifiers *)

Lemma of_uint_acc_grows (d : Decimal.uint) :
  forall p, (p <= Pos.of_uint_acc d p)%positive.
Proof.
  induction d as [|d IH|d IH|d IH|d IH|d IH|d IH|d IH|d IH|d IH|d IH];
    intros p; cbn [Pos.of_uint_acc]; [lia|..];
    match goal with
    | |- (_ <= Pos.of_uint_acc d ?q)%positive =>
        specialize (IH q); lia
    end.
Qed.

Lemma accumulate_digits (d : Decimal.uint) :
  forall (p : positive) (w : World),
    currentMessageNum w = Z.pos p ->
    Z.pos (Pos.of_uint_acc d p) < 2147483648 ->
    currentMessageNum (accumulate (chars (NilEmpty.string_of_uint d)) w)
    = Z.pos (Pos.of_uint_acc d p).
Proof.
  induction d as [|d IH|d IH|d IH|d IH|d IH|d IH|d IH|d IH|d IH|d IH];
    intros p w Hw Hlt; [exact Hw|..];
    cbn [NilEmpty.string_of_uint Pos.of_uint_acc] in *;
    match goal with
    | H : Z.pos (Pos.of_uint_acc d ?q) < _ |- _ =>
        pose proof (of_uint_acc_grows d q) as Hge;
        change (chars (String ?a ?rest)) with (to_char (ch a) :: chars rest);
        cbn [accumulate fold_left];
        apply (IH q); [|exact H];
        cbn [call_consumer currentMessageNum]; rewrite Hw;
        rewrite (wrap32_small (Z.pos p * 10)) by lia;
        set (k := to_char (ch _) - ch "0"); vm_compute in k; subst k;
        rewrite wrap32_small by lia; lia
    end.
Qed.

Lemma accumulate_uint (d : Decimal.uint) :
  forall (w : World),
    currentMessageNum w = 0 ->
    Z.of_N (Pos.of_uint d) < 2147483648 ->
    currentMessageNum (accumulate (chars (NilEmpty.string_of_uint d)) w)
    = Z.of_N (Pos.of_uint d).
Proof.
  induction d as [|d IH|d IH|d IH|d IH|d IH|d IH|d IH|d IH|d IH|d IH];
    intros w Hw Hlt; [exact Hw|..];
    cbn [NilEmpty.string_of_uint Pos.of_uint] in *;
    change (chars (String ?a ?rest)) with (to_char (ch a) :: chars rest);
    cbn [accumulate fold_left].
  - apply IH; [|exact Hlt]. cbn [call_consumer currentMessageNum]. now rewrite Hw.
  - apply accumulate_digits; [|exact Hlt]. cbn [call_consumer currentMessageNum]. now rewrite Hw.
  - apply accumulate_digits; [|exact Hlt]. cbn [call_consumer currentMessageNum]. now rewrite Hw.
  - apply accumulate_digits; [|exact Hlt]. cbn [call_consumer currentMessageNum]. now rewrite Hw.
  - apply accumulate_digits; [|exact Hlt]. cbn [call_consumer currentMessageNum]. now rewrite Hw.
  - apply accumulate_digits; [|exact Hlt]. cbn [call_consumer currentMessageNum]. now rewrite Hw.
  - apply accumulate_digits; [|exact Hlt]. cbn [call_consumer currentMessageNum]. now rewrite Hw.
  - apply accumulate_digits; [|exact Hlt]. cbn [call_consumer currentMessageNum]. now rewrite Hw.
  - apply accumulate_digits; [|exact Hlt]. cbn [call_consumer currentMessageNum]. now rewrite Hw.
  - apply accumulate_digits; [|exact Hlt]. cbn [call_consumer currentMessageNum]. now rewrite Hw.
Qed.

(** X14. Printing and accumulating are inverse: for an identifier [n]
    that fits a non-negative [int], calling [handleMIDdig] on the
    characters of [n] as the report loop prints it, starting from a
    cleared identifier, gives [n] back and leaves the flagged list and
    the streams alone. *)
Theorem accumulate_printed_identifier (n : Z) (w : World) :
  0 <= n < 2147483648 ->
  currentMessageNum w = 0 ->
  let w' := accumulate (chars (string_of_Z n)) w in
  currentMessageNum w' = n
  /\ spamMessages w' = spamMessages w /\ cout w' = cout w /\ cerr w' = cerr w.
Proof.
  intros Hn Hw w'. split.
  - subst w'. unfold string_of_Z.
    destruct n as [|p|p]; [| |lia].
    + cbn. rewrite Hw. reflexivity.
    + cbn [Z.to_int NilZero.string_of_int].
      pose proof (DecimalPos.Unsigned.of_to p) as Hp.
      assert (HZ : Z.of_N (Pos.of_uint (Pos.to_uint p)) = Z.pos p) by now rewrite Hp.
      unfold NilZero.string_of_uint.
      destruct (Pos.to_uint p) eqn:E; try discriminate HZ;
        rewrite <- HZ; apply accumulate_uint; trivial; rewrite HZ; lia.
  - subst w'. generalize (chars (string_of_Z n)). intros ds. revert w Hw.
    induction ds as [|c ds IH] using rev_ind; intros w Hw; [now cbn|].
    unfold accumulate in *. rewrite fold_left_app. cbn.
    destruct (IH w Hw) as (H1 & H2 & H3). auto.
Qed.

Lemma accumulate_printed_identifier_witness :
  currentMessageNum (accumulate (chars (string_of_Z 2147483647)) initial_world)
  = 2147483647.
Proof.
  apply (accumulate_printed_identifier 2147483647 initial_world); [lia|reflexivity].
Defined.

(** ** The record header *)

Lemma whitespace_cases (c : Z) :
  call_comparator whitespace c no_comparand = true ->
  c = ch " " \/ c = ch TAB \/ c = ch CR \/ c = ch NL.
Proof.
  cbn. intros H.
  repeat (apply orb_prop in H; destruct H as [H|H]);
    apply Z.eqb_eq in H; auto.
Qed.

Lemma whitespace_loop (s : DFAstate) (l : list Z) (w : World) :
  s = openDoc 4 \/ s = openDocID 6 \/ s = msgdig 1 ->
  blank l = true -> run main_automaton s l w = (Some s, w).
Proof.
  intros Hs. induction l as [|c l IH]; intros Hl; [reflexivity|].
  cbn [blank forallb] in Hl. apply andb_prop in Hl. destruct Hl as [Hc Hl].
  cbn [run].
  assert (Ht : transitionWithChar main_automaton s c w = (Some s, w)).
  { apply whitespace_cases in Hc.
    destruct Hs as [-> | [-> | ->]]; destruct Hc as [-> | [-> | [-> | ->]]];
      vm_compute; reflexivity. }
  rewrite Ht. now apply IH.
Qed.

Lemma after_digits (s : DFAstate) (l : list Z) (w : World) :
  s = msgdig 0 \/ s = msgdig 1 ->
  blank l = true ->
  run main_automaton s (l ++ chars "</DOCID>") w = (Some (closeDocID 7), w).
Proof.
  intros Hs Hl. destruct l as [|c l].
  - destruct Hs as [-> | ->]; vm_compute; reflexivity.
  - cbn [blank forallb] in Hl. apply andb_prop in Hl. destruct Hl as [Hc Hl].
    cbn [app run].
    assert (Ht : transitionWithChar main_automaton s c w = (Some (msgdig 1), w)).
    { apply whitespace_cases in Hc.
      destruct Hs as [-> | ->]; destruct Hc as [-> | [-> | [-> | ->]]];
        vm_compute; reflexivity. }
    rewrite Ht, run_app, (whitespace_loop (msgdig 1) l w) by auto.
    vm_compute. reflexivity.
Qed.

(** X15. The header tolerates whitespace between its parts: [<DOC>],
    [<DOCID>], [msg] with one or two digits and [</DOCID>], with any run
    of spaces, tabs, carriage returns and newlines after [<DOC>], after
    [<DOCID>] and after the digits, are read from [start] up to
    [closeDocID 7]; the identifier is then the value of the digits,
    whatever it held before, and nothing else has changed. *)
Theorem header_with_whitespace (ws1 ws2 ws3 : list Z) (d1 d2 : Z) (w : World) :
  blank ws1 = true -> blank ws2 = true -> blank ws3 = true ->
  call_comparator digits d1 no_comparand = true ->
  call_comparator digits d2 no_comparand = true ->
  run main_automaton start
      (chars "<DOC>" ++ ws1 ++ chars "<DOCID>" ++ ws2 ++ chars "msg"
       ++ [d1] ++ ws3 ++ chars "</DOCID>") w
  = (Some (closeDocID 7), with_id w (d1 - 48))
  /\ run main_automaton start
         (chars "<DOC>" ++ ws1 ++ chars "<DOCID>" ++ ws2 ++ chars "msg"
          ++ [d1; d2] ++ ws3 ++ chars "</DOCID>") w
     = (Some (closeDocID 7), with_id w ((d1 - 48) * 10 + (d2 - 48))).
Proof.
  intros H1 H2 H3 Hd1 Hd2. pose proof (digit_bounds d1 Hd1) as Hb1.
  assert (Hopen : run main_automaton start (chars "<DOC>") w = (Some (openDoc 4), with_id w 0))
    by (vm_compute; reflexivity).
  assert (Hid : forall v, run main_automaton (openDoc 4) (chars "<DOCID>") v
                          = (Some (openDocID 6), v))
    by (intros v; vm_compute; reflexivity).
  assert (Hmsg : forall v, run main_automaton (openDocID 6) (chars "msg") v
                           = (Some (msg 2), v))
    by (intros v; vm_compute; reflexivity).
  assert (Hpre : forall tail,
             run main_automaton start
                 (chars "<DOC>" ++ ws1 ++ chars "<DOCID>" ++ ws2 ++ chars "msg" ++ tail) w
             = run main_automaton (msg 2) tail (with_id w 0)).
  { intros tail.
    rewrite run_app, Hopen.
    rewrite run_app, (whitespace_loop (openDoc 4) ws1) by auto.
    rewrite run_app, Hid.
    rewrite run_app, (whitespace_loop (openDocID 6) ws2) by auto.
    now rewrite run_app, Hmsg. }
  split.
  - rewrite Hpre. cbn [app run].
    rewrite (first_digit d1 (with_id w 0) Hd1 eq_refl).
    rewrite after_digits by auto. reflexivity.
  - rewrite Hpre. cbn [app run].
    rewrite (first_digit d1 (with_id w 0) Hd1 eq_refl).
    rewrite (second_digit d2 _ Hd2) by (cbn; lia).
    rewrite after_digits by auto. reflexivity.
Qed.

Lemma header_with_whitespace_witness :
  run main_automaton start
      (chars "<DOC>" ++ chars nl ++ chars "<DOCID>" ++ chars " " ++ chars "msg"
       ++ [ch "4"; ch "2"] ++ chars "  " ++ chars "</DOCID>") (mkWorld [5] 5 "" "")
  = (Some (closeDocID 7), with_id (mkWorld [5] 5 "" "") ((ch "4" - 48) * 10 + (ch "2" - 48))).
Proof.
  apply (proj2 (header_with_whitespace (chars nl) (chars " ") (chars "  ")
                  (ch "4") (ch "2") (mkWorld [5] 5 "" "")
                  eq_refl eq_refl eq_refl eq_refl eq_refl)).
Defined.

(** ** Where the identifier changes *)

Lemma identifier_rules (s : DFAstate) (r : transitionRecord) :
  declared s = true -> In r (main_automaton s) ->
  match doing r with
  | Some newMsg => s = openDoc 3 /\ onSymbols r = justChar /\ comparedTo r = ch ">"
  | Some handleMIDdig => (s = msg 2 \/ s = msgdig 0) /\ onSymbols r = digits
  | Some sayAccepted => False
  | _ => True
  end.
Proof.
  intros Hs Hr.
  each_state Hs; each_rule Hr; cbn; auto.
Qed.

(** X16. The identifier changes in the header only: while a file is
    scanned, a transition changes [currentMessageNum] only when it is the
    [>] that completes [<DOC], which clears it, or a digit read in [msg 2]
    or [msgdig 0], that is the first or second digit after [msg], which
    extends it by that digit without overflow. *)
Theorem identifier_changes_in_header_only
    (pre : list Z) (c : Z) (s : DFAstate) (w1 : World) o (w2 : World) :
  run main_automaton start pre initial_world = (Some s, w1) ->
  transitionWithChar main_automaton s c w1 = (o, w2) ->
  currentMessageNum w2 <> currentMessageNum w1 ->
  (c = ch ">" /\ (exists p, pre = p ++ chars "<DOC") /\ currentMessageNum w2 = 0)
  \/ (call_comparator digits c no_comparand = true
      /\ ((s = msg 2 /\ exists p, pre = p ++ chars "msg") \/ s = msgdig 0)
      /\ currentMessageNum w2 = currentMessageNum w1 * 10 + (c - ch "0")).
Proof.
  intros Hrun Ht Hneq.
  assert (Hinit : id_invariant start initial_world)
    by (split; [cbn; lia|constructor]).
  destruct (run_id_invariant pre start initial_world eq_refl Hinit)
    as (s0 & w0 & Hrun0 & Hs & Hcur & _).
  rewrite Hrun in Hrun0. injection Hrun0 as <- <-.
  destruct (run_matched_text pre initial_world s w1 Hrun) as (p & Hp).
  destruct o as [s'|];
    [|rewrite (transition_none_world _ _ _ _ _ Ht) in Hneq; now contradiction Hneq].
  destruct (transition_some_rule _ _ _ _ _ _ Ht) as (r & Hin & Hacc & -> & ->).
  pose proof (identifier_rules s r Hs Hin) as Hr.
  pose proof (rules_keep_id_bound s r Hs Hin) as Hk.
  unfold act, accepts, keeps_id_bound in *.
  destruct (doing r) as [[]|]; try (now contradiction Hneq).
  - left. destruct Hr as (-> & Hg & Hc). rewrite Hg, Hc in Hacc.
    apply Z.eqb_eq in Hacc. repeat split; trivial. now exists p.
  - right. destruct Hr as (Hst & Hg). rewrite Hg in Hacc, Hk.
    apply Z.leb_le in Hk. pose proof (digit_bounds c Hacc) as Hd.
    pose proof (id_bound_le_99 (to r)) as Hb.
    split; [exact Hacc|]. split.
    + destruct Hst as [-> | ->]; [left; split; [reflexivity|now exists p]|now right].
    + cbn. rewrite (wrap32_small (currentMessageNum w1 * 10)) by lia.
      now rewrite wrap32_small by lia.
Qed.

Lemma identifier_changes_in_header_only_witness :
  (ch "7" = ch ">" /\ (exists p, chars "<DOC><DOCID>msg4" = p ++ chars "<DOC")
   /\ currentMessageNum (mkWorld [] 47 "" "") = 0)
  \/ (call_comparator digits (ch "7") no_comparand = true
      /\ ((msgdig 0 = msg 2 /\ exists p, chars "<DOC><DOCID>msg4" = p ++ chars "msg")
          \/ msgdig 0 = msgdig 0)
      /\ currentMessageNum (mkWorld [] 47 "" "")
         = currentMessageNum (mkWorld [] 4 "" "") * 10 + (ch "7" - ch "0")).
Proof.
  apply (identifier_changes_in_header_only
           (chars "<DOC><DOCID>msg4") (ch "7") (msgdig 0)
           (mkWorld [] 4 "" "") (Some (msgdig 1)) (mkWorld [] 47 "" "")).
  - vm_compute. reflexivity.
  - vm_compute. reflexivity.
  - cbn. lia.
Defined.

(** ** A well-formed record with a flagged phrase *)

Lemma plain_body_rules (s : DFAstate) (r : transitionRecord) :
  plain_body s = true -> In r (main_automaton s) ->
  (plain_body (to r) = true
   \/ (onSymbols r = justChar /\ comparedTo r = ch "<"))
  /\ ((doing r = None /\ spam_zone (to r) = spam_zone s)
      \/ (doing r = Some recordSpam /\ to r = isSpam /\ spam_zone s = false)).
Proof.
  intros Hp Hr.
  assert (Hs : declared s = true).
  { apply in_body_declared. destruct s; trivial; discriminate Hp. }
  each_state Hs; try discriminate Hp; each_rule Hr;
    (split; [first [left; reflexivity | right; split; reflexivity]
            |first [left; split; reflexivity | right; repeat split; reflexivity]]).
Qed.

Lemma plain_body_run (l : list Z) :
  forall (s : DFAstate) (w : World),
    plain_body s = true -> no_open_angle l = true ->
    exists s' w',
      run main_automaton s l w = (Some s', w')
      /\ plain_body s' = true
      /\ ((spam_zone s' = spam_zone s /\ w' = w)
          \/ (spam_zone s = false /\ s' = isSpam
              /\ w' = call_consumer recordSpam 0 w)).
Proof.
  induction l as [|c l IH]; intros s w Hp Hl.
  - exists s, w. auto.
  - cbn [no_open_angle forallb] in Hl. apply andb_prop in Hl. destruct Hl as [Hc Hl].
    apply negb_true_iff, Z.eqb_neq in Hc.
    assert (Hs : declared s = true).
    { apply in_body_declared. destruct s; trivial; discriminate Hp. }
    destruct (declared_step_defined s c w Hs) as (s1 & w1 & Ht).
    cbn [run]. rewrite Ht.
    destruct (transition_some_rule _ _ _ _ _ _ Ht) as (r & Hin & Hacc & -> & ->).
    destruct (plain_body_rules s r Hp Hin) as (Hto & Hdo).
    assert (Hp1 : plain_body (to r) = true).
    { destruct Hto as [Hto|(Hg & Hk)]; [exact Hto|].
      unfold accepts in Hacc. rewrite Hg, Hk in Hacc.
      apply Z.eqb_eq in Hacc. contradiction. }
    destruct (IH (to r) (act r c w) Hp1 Hl) as (s' & w' & Hrun & Hp' & Hcase).
    exists s', w'. split; [exact Hrun|]. split; [exact Hp'|].
    unfold act in *.
    destruct Hdo as [(Hd & Hz)|(Hd & Hir & Hz)]; rewrite Hd in *.
    + rewrite Hz in Hcase. exact Hcase.
    + rewrite Hir in Hcase. cbn [spam_zone] in Hcase.
      destruct Hcase as [(Hz' & ->)|(Hcontra & _)]; [|discriminate Hcontra].
      right. repeat split; trivial.
      destruct s'; cbn in Hz', Hp'; try discriminate; reflexivity.
Qed.

Lemma plain_zone_isSpam (s : DFAstate) :
  plain_body s = true -> spam_zone s = true -> s = isSpam.
Proof. destruct s; cbn; intros Hp Hz; try discriminate; reflexivity. Qed.

Lemma phrase_texts_plain (text : string) :
  In text flagging_texts -> no_open_angle (chars text) = true.
Proof.
  cbn. intros H. repeat (destruct H as [<-|H]); [..|contradiction]; reflexivity.
Qed.

(** X17. A well-formed record holding a flagged phrase is flagged once
    under its identifier: after [<DOC><DOCID>msg], one digit, [</DOCID>]
    and an empty line, a body made of any text without [<] in which one
    of the flagging texts stands between two delimiters, followed by
    [</DOC>], brings the automaton from [start] back to [start] with the
    value of the digit as identifier and appended exactly once to the
    flagged list, however many phrases the body holds. *)
Theorem well_formed_spam_record
    (d1 : Z) (b1 b2 : list Z) (d0 d : Z) (text : string) (w : World) :
  call_comparator digits d1 no_comparand = true ->
  no_open_angle b1 = true -> no_open_angle b2 = true ->
  call_comparator delimiters d0 no_comparand = true ->
  call_comparator delimiters d no_comparand = true ->
  In text flagging_texts ->
  run main_automaton start
      (chars "<DOC><DOCID>msg" ++ [d1] ++ chars ("</DOCID>" ++ nl ++ nl)
       ++ b1 ++ ([d0] ++ chars text ++ [d]) ++ b2 ++ chars "</DOC>") w
  = (Some start,
     mkWorld (spamMessages w ++ [d1 - 48]) (d1 - 48) (cout w) (cerr w)).
Proof.
  intros Hd1 Hb1 Hb2 Hd0 Hd Htext.
  set (v := with_id w (d1 - 48)).
  assert (Hmid : no_open_angle ([d0] ++ chars text ++ [d]) = true).
  { unfold no_open_angle. rewrite !forallb_app.
    fold (no_open_angle (chars text)). rewrite (phrase_texts_plain text Htext).
    apply delimiters_cases in Hd0, Hd.
    destruct Hd0 as [-> | ->]; destruct Hd as [-> | ->]; reflexivity. }
  rewrite run_app.
  replace (run main_automaton start (chars "<DOC><DOCID>msg") w)
    with (Some (msg 2), with_id w 0) by (vm_compute; reflexivity).
  rewrite run_app. cbn [run]. rewrite (first_digit d1 (with_id w 0) Hd1 eq_refl).
  change (with_id (with_id w 0) (d1 - 48)) with v.
  rewrite run_app.
  replace (run main_automaton (msgdig 0) (chars ("</DOCID>" ++ nl ++ nl)) v)
    with (Some delimited, v) by (vm_compute; reflexivity).
  rewrite run_app.
  destruct (plain_body_run b1 delimited v eq_refl Hb1) as (s1 & v1 & -> & Hp1 & Hcase1).
  rewrite run_app.
  assert (Hflag : run main_automaton s1 ([d0] ++ chars text ++ [d]) v1
                  = (Some isSpam, call_consumer recordSpam 0 v)).
  { destruct Hcase1 as [(Hz & ->)|(_ & -> & ->)].
    - cbn [spam_zone] in Hz.
      rewrite (phrase_between_delimiters s1 d0 d text v); trivial.
      destruct s1; trivial; discriminate Hp1.
    - destruct (plain_body_run _ isSpam (call_consumer recordSpam 0 v) eq_refl Hmid)
        as (s2 & v2 & -> & Hp2 & [(Hz & ->)|(Hcontra & _)]); [|discriminate Hcontra].
      now rewrite (plain_zone_isSpam s2 Hp2 Hz). }
  rewrite Hflag, run_app.
  destruct (plain_body_run b2 isSpam (call_consumer recordSpam 0 v) eq_refl Hb2)
    as (s3 & v3 & -> & Hp3 & [(Hz & ->)|(Hcontra & _)]); [|discriminate Hcontra].
  rewrite (plain_zone_isSpam s3 Hp3 Hz).
  subst v. vm_compute. reflexivity.
Qed.

Lemma well_formed_spam_record_witness :
  run main_automaton start
      (chars "<DOC><DOCID>msg" ++ [ch "7"] ++ chars ("</DOCID>" ++ nl ++ nl)
       ++ chars "Dear winner," ++ ([ch " "] ++ chars "free trials" ++ [ch DQ])
       ++ chars " and winnings for you" ++ chars "</DOC>") initial_world
  = (Some start, mkWorld ([] ++ [ch "7" - 48]) (ch "7" - 48) "" "").
Proof.
  apply (well_formed_spam_record (ch "7") (chars "Dear winner,")
           (chars " and winnings for you") (ch " ") (ch DQ) "free trials"
           initial_world); try reflexivity.
  cbn. tauto.
Defined.

(** ** The trace *)

Lemma transition_keeps_cout (s : DFAstate) (c : Z) (w : World) o w' :
  declared s = true ->
  transitionWithChar main_automaton s c w = (o, w') -> cout w' = cout w.
Proof.
  intros Hs Ht. destruct o as [s'|];
    [|now rewrite (transition_none_world _ _ _ _ _ Ht)].
  destruct (transition_some_rule _ _ _ _ _ _ Ht) as (r & Hin & _ & _ & ->).
  pose proof (identifier_rules s r Hs Hin) as Hr.
  unfold act. destruct (doing r) as [[]|]; (reflexivity || contradiction).
Qed.

Lemma scan_loop_trace (file : string) :
  forall (s : DFAstate) (input : Z) (w1 w2 : World),
    declared s = true -> same_globals w1 w2 ->
    cout (world (scan_loop main_automaton file (Some s) input w1))
    = (cout w1
       ++ trace_text s (visited main_automaton s (chars file) w2) file
       ++ "<end>" ++ endl)%string.
Proof.
  induction file as [|a rest IH]; intros s input w1 w2 Hs Hg.
  - reflexivity.
  - cbn [scan_loop]. unfold loop_body. rewrite char_of_int_ch.
    change (chars (String a rest)) with (to_char (ch a) :: chars rest).
    cbn [visited].
    set (w1' := put_cout _ (put_cout _ w1)).
    assert (Hg' : same_globals w1' w2).
    { subst w1'.
      refine (same_globals_trans _ _ _ (put_cout_globals _ _) _).
      exact (same_globals_trans _ _ _ (put_cout_globals _ _) Hg). }
    destruct (transition_globals main_automaton s (to_char (ch a)) w1' w2 Hg')
      as [Hfst Hsnd].
    destruct (declared_step_defined s (to_char (ch a)) w1' Hs) as (s1 & w3 & Ht).
    pose proof (transition_keeps_cout _ _ _ _ _ Hs Ht) as Hcout.
    rewrite Ht in *.
    destruct (transitionWithChar main_automaton s (to_char (ch a)) w2) as [o2 v2].
    cbn [fst snd] in Hfst, Hsnd. subst o2.
    rewrite (IH s1 (ch a) w3 v2 (step_declared _ _ _ _ _ Hs Ht) Hsnd).
    rewrite Hcout. subst w1'. cbn [cout put_cout trace_text].
    now rewrite <- !append_assoc.
Qed.

(** X18. The standard output of a scan is its trace: for every byte of
    the file, in order, the name of the state the byte is read in between
    double quotes, a dash, the byte and an arrow, and after the last byte
    the end mark and a newline; no action of the automaton writes to it. *)
Theorem scan_writes_trace (file : string) :
  cout (world (scan_loop main_automaton file (Some start) 0 initial_world))
  = (trace_text start
       (visited main_automaton start (chars file) initial_world) file
     ++ "<end>" ++ endl)%string.
Proof.
  exact (scan_loop_trace file start 0 initial_world initial_world eq_refl
           (conj eq_refl eq_refl)).
Qed.

(** X19. The names written in the trace identify the states: two
    declared state objects with the same name are the same object. *)
Theorem state_names_distinct (s1 s2 : DFAstate) :
  declared s1 = true -> declared s2 = true -> name s1 = name s2 -> s1 = s2.
Proof.
  intros H1 H2 Hn. apply declared_all_states in H1, H2.
  assert (H : forallb (fun x => forallb (names_apart x) all_states) all_states = true)
    by (vm_compute; reflexivity).
  rewrite forallb_forall in H. specialize (H s1 H1).
  rewrite forallb_forall in H. specialize (H s2 H2).
  unfold names_apart in H. apply orb_prop in H. destruct H as [H|H].
  - now apply same_state_eq.
  - rewrite Hn, String.eqb_refl in H. discriminate H.
Qed.

Lemma state_names_distinct_witness :
  openDoc 3 = openDoc (2 + 1).
Proof.
  apply state_names_distinct; reflexivity.
Defined.

(** ** Before the first record *)

Lemma awaiting_rules (s : DFAstate) (r : transitionRecord) :
  awaiting_record s = true -> In r (main_automaton s) ->
  (doing r = None /\ awaiting_record (to r) = true)
  \/ (s = openDoc 3 /\ onSymbols r = justChar /\ comparedTo r = ch ">").
Proof.
  intros Ha Hr.
  assert (Hs : declared s = true).
  { destruct s as [|i|i|i|i|i| | | |i|i|i|i|i|i|i|i| |i|i];
      try discriminate Ha; trivial.
    destruct i as [|[|[|[|i]]]]; trivial; discriminate Ha. }
  each_state Hs; try discriminate Ha; each_rule Hr;
    first [left; split; reflexivity | right; repeat split; reflexivity].
Qed.

(** X20. Nothing happens before the first open marker: as long as the
    input read from [start] does not contain [<DOC>], the automaton is in
    [start] or in one of [openDoc 0] to [openDoc 3] and the globals are
    as they were, whatever other markers, digits or phrases the input
    holds. *)
Theorem idle_until_open_marker (cs : list Z) :
  forall (w : World),
    (forall p q, cs <> p ++ chars "<DOC>" ++ q) ->
    exists s, run main_automaton start cs w = (Some s, w)
              /\ awaiting_record s = true.
Proof.
  induction cs as [|c cs IH] using rev_ind; intros w Hno.
  - now exists start.
  - destruct (IH w) as (s & Hrun & Ha).
    { intros p q E. apply (Hno p (q ++ [c])). rewrite E.
      now rewrite <- !app_assoc. }
    rewrite run_app, Hrun. cbn [run].
    assert (Hs : declared s = true)
      by exact (run_declared cs start w s w eq_refl Hrun).
    destruct (declared_step_defined s c w Hs) as (s' & w' & Ht).
    rewrite Ht.
    destruct (transition_some_rule _ _ _ _ _ _ Ht) as (r & Hin & Hacc & -> & ->).
    destruct (awaiting_rules s r Ha Hin) as [(Hd & Hto)|(-> & Hg & Hk)].
    + exists (to r). unfold act. rewrite Hd. now split.
    + exfalso. unfold accepts in Hacc. rewrite Hg, Hk in Hacc.
      apply Z.eqb_eq in Hacc. subst c.
      destruct (run_matched_text cs w (openDoc 3) w Hrun) as (p & Hp).
      apply (Hno p []). rewrite Hp, app_nil_r, <- app_assoc. reflexivity.
Qed.

Lemma idle_until_open_marker_witness :
  exists s, run main_automaton start (chars "<D") initial_world = (Some s, initial_world)
            /\ awaiting_record s = true.
Proof.
  apply idle_until_open_marker.
  intros p q E. apply (f_equal (@List.length Z)) in E.
  rewrite !length_app in E. cbn in E. lia.
Defined.

(** ** Entering the body *)

Lemma body_entry_rules (s : DFAstate) (r : transitionRecord) :
  declared s = true -> In r (main_automaton s) ->
  (to r = subject -> s = closeDocID 7 \/ s = subject)
  /\ (in_body (to r) = true -> in_body s = false -> s = subject /\ to r = delimited).
Proof.
  intros Hs Hr.
  each_state Hs; each_rule Hr;
    (split; [intros E; first [discriminate E | left; reflexivity | right; reflexivity]
            |intros E1 E2; first [discriminate E1 | discriminate E2 | split; reflexivity]]).
Qed.

Lemma subject_after_newline (cs : list Z) :
  forall (w w' : World),
    run main_automaton start cs w = (Some subject, w') ->
    exists p ws, cs = p ++ [ch NL] ++ ws
                 /\ blank ws = true /\ no_newline ws = true.
Proof.
  induction cs as [|c cs IH] using rev_ind; intros w w' Hrun; [discriminate Hrun|].
  rewrite run_app in Hrun.
  destruct (run main_automaton start cs w) as [[s1|] w1] eqn:Hrun1; [|discriminate Hrun].
  cbn [run] in Hrun.
  destruct (transitionWithChar main_automaton s1 c w1) as [[s2|] w2] eqn:Ht;
    [|discriminate Hrun].
  injection Hrun as -> ->.
  pose proof (run_declared cs start w s1 w1 eq_refl Hrun1) as Hs1.
  destruct (transition_some_rule _ _ _ _ _ _ Ht) as (r & Hin & _ & Hto & _).
  destruct (proj1 (body_entry_rules s1 r Hs1 Hin) (eq_sym Hto)) as [-> | ->].
  - rewrite closeDocID_7_step in Ht.
    destruct (c =? ch NL) eqn:E; [|discriminate Ht].
    apply Z.eqb_eq in E. subst c. exists cs, []. now rewrite app_nil_r.
  - rewrite subject_step in Ht.
    destruct (c =? ch NL) eqn:E; [discriminate Ht|].
    destruct (call_comparator whitespace c no_comparand) eqn:Ew; [|discriminate Ht].
    destruct (IH w w1 Hrun1) as (p & ws & -> & Hb & Hn).
    exists p, (ws ++ [c]). rewrite <- !app_assoc. split; [reflexivity|].
    unfold blank, no_newline in *. rewrite !forallb_app, Hb, Hn.
    cbn [forallb]. now rewrite Ew, E.
Qed.

(** X21. The body begins only after a blank line: when the input [pre]
    read from [start] has led to a state outside the body and the next
    symbol enters a body state, that symbol is a newline read in
    [subject], the state entered is [delimited], and the input read ends
    with a newline, spaces, tabs or carriage returns only, and that
    newline. *)
Theorem body_entered_after_blank_line
    (pre : list Z) (c : Z) (w : World) (s : DFAstate) (w1 : World) s' (w2 : World) :
  run main_automaton start pre w = (Some s, w1) ->
  in_body s = false ->
  transitionWithChar main_automaton s c w1 = (Some s', w2) ->
  in_body s' = true ->
  s = subject /\ s' = delimited /\ w2 = w1
  /\ exists p ws, pre ++ [c] = p ++ [ch NL] ++ ws ++ [ch NL]
                  /\ blank ws = true /\ no_newline ws = true.
Proof.
  intros Hrun Hout Ht Hin'.
  pose proof (run_declared pre start w s w1 eq_refl Hrun) as Hs.
  destruct (transition_some_rule _ _ _ _ _ _ Ht) as (r & Hin & _ & Hto & _).
  rewrite Hto in Hin'.
  destruct (proj2 (body_entry_rules s r Hs Hin) Hin' Hout) as (-> & Hdel).
  rewrite subject_step in Ht.
  destruct (c =? ch NL) eqn:E.
  - apply Z.eqb_eq in E. subst c. injection Ht as <- <-.
    repeat split; trivial.
    destruct (subject_after_newline pre w w1 Hrun) as (p & ws & -> & Hb & Hn).
    exists p, ws. now rewrite <- !app_assoc.
  - rewrite Hto, Hdel in Ht.
    destruct (call_comparator whitespace c no_comparand); discriminate Ht.
Qed.

Lemma body_entered_after_blank_line_witness :
  exists p ws, chars ("<DOC><DOCID>msg4</DOCID>S" ++ nl ++ " ") ++ [ch NL]
               = p ++ [ch NL] ++ ws ++ [ch NL]
               /\ blank ws = true /\ no_newline ws = true.
Proof.
  refine (proj2 (proj2 (proj2 (body_entered_after_blank_line
            (chars ("<DOC><DOCID>msg4</DOCID>S" ++ nl ++ " ")) (ch NL) initial_world
            subject (mkWorld [] 4 "" "") delimited (mkWorld [] 4 "" "") _ _ _ _)))).
  - vm_compute. reflexivity.
  - reflexivity.
  - vm_compute. reflexivity.
  - reflexivity.
Defined.
